(** * Security response automation: verification gate, state machine, store

    A shallow embedding of [scripts/security-response-automation.py]:
    the event and action objects, the per-class verification policy, the
    orchestrator ([SecurityResponseManager]) and its on-disk store.

    Python objects become records, the two workspace directories become
    finite maps from file stem to record, and everything the script reaches
    outside itself (uuid4, the clock, docker/podman inspection, the
    remediation commands, the file system) is an explicit parameter. *)

From Stdlib Require Import ZArith Ascii String List Lia Bool.
From stdpp Require Import base option gmap strings list pretty.
Import ListNotations.
Local Open Scope string_scope.
Local Open Scope Z_scope.

(** ** Configuration (DEFAULT_CONFIG and whatever a user file merges in) *)

Record GeneralCfg := { dry_run : bool }.

Record NetworkCfg := {
  block_duration : Z;
  block_method : string;
  trusted_ips : list string;
  critical_hosts : list string;
  max_auto_block_score : Z }.

Record ContainerCfg := {
  engine : string;
  isolation_network : string;
  auto_isolate_score : Z;
  critical_containers : list string }.

Record CredentialsCfg := { auto_rotate_score : Z }.

Record ForensicsCfg := { auto_capture : bool }.

Record PlaybooksCfg := {
  playbooks_dir : string;
  auto_execute_score : Z;
  available : gmap string string }.

Record Config := {
  general : GeneralCfg;
  network : NetworkCfg;
  container : ContainerCfg;
  credentials : CredentialsCfg;
  forensics : ForensicsCfg;
  playbooks : PlaybooksCfg }.

Definition DEFAULT_CONFIG : Config := {|
  general := {| dry_run := false |};
  network := {|
    block_duration := 3600;
    block_method := "iptables";
    trusted_ips := ["192.168.1.0/24"];
    critical_hosts := ["192.168.1.1"; "192.168.1.2"];
    max_auto_block_score := 70 |};
  container := {|
    engine := "docker";
    isolation_network := "isolation-network";
    auto_isolate_score := 90;
    critical_containers := ["pihole"; "router"; "proxy"] |};
  credentials := {| auto_rotate_score := 0 |};
  forensics := {| auto_capture := true |};
  playbooks := {|
    playbooks_dir := "/home/sprime01/homelab/homelab-infra/security-playbooks";
    auto_execute_score := 0;
    available := list_to_map [
      ("brute_force", "respond-to-brute-force.sh");
      ("malware_detection", "respond-to-malware.sh");
      ("data_exfiltration", "respond-to-exfiltration.sh");
      ("ransomware", "respond-to-ransomware.sh");
      ("unauthorized_access", "respond-to-unauthorized-access.sh")] |} |}.

(** main(): [manager.config["general"]["dry_run"] = True] for --dry-run. *)
Definition set_dry_run (c : Config) : Config :=
  {| general := {| dry_run := true |};
     network := network c; container := container c;
     credentials := credentials c; forensics := forensics c;
     playbooks := playbooks c |}.

(** ** The [ipaddress] module, as far as BlockIPAction uses it

    [None] stands for the ValueError that [ipaddress.ip_address] and
    [ipaddress.ip_network] raise on text they cannot parse. *)

Class IpAddressLib := {
  ip_obj : Type;
  ip_net : Type;
  ip_address : string -> option ip_obj;
  ip_network : string -> option ip_net;
  ip_eq : ip_obj -> ip_obj -> bool;
  ip_contains : ip_net -> ip_obj -> bool }.

(** A concrete instance for the dotted-quad IPv4 fragment, used to run the
    model on examples: addresses are 32-bit integers. *)
Module IPv4.

Definition digit_of (c : ascii) : option Z :=
  let n := Z.of_nat (nat_of_ascii c) in
  if (48 <=? n) && (n <=? 57) then Some (n - 48) else None.

Fixpoint decimal (acc : Z) (s : string) : option Z :=
  match s with
  | EmptyString => Some acc
  | String c s' =>
      match digit_of c with
      | Some d => decimal (10 * acc + d) s'
      | None => None
      end
  end.

(** An octet: one to three decimal digits, no leading zero, at most 255. *)
Definition octet (s : string) : option Z :=
  match s with
  | EmptyString => None
  | String c rest =>
      if (3 <? String.length s)%nat then None
      else if Ascii.eqb c "0"%char && negb (String.eqb rest "") then None
      else match decimal 0 s with
           | Some v => if v <=? 255 then Some v else None
           | None => None
           end
  end.

(** Split at every occurrence of a separator character. *)
Fixpoint split_on (sep : ascii) (cur : string) (s : string) : list string :=
  match s with
  | EmptyString => [String.rev cur]
  | String c s' =>
      if Ascii.eqb c sep then String.rev cur :: split_on sep "" s'
      else split_on sep (String c cur) s'
  end.

Definition address (s : string) : option Z :=
  match split_on "."%char "" s with
  | [a; b; c; d] =>
      match octet a, octet b, octet c, octet d with
      | Some a, Some b, Some c, Some d =>
          Some (Z.lor (Z.shiftl a 24) (Z.lor (Z.shiftl b 16) (Z.lor (Z.shiftl c 8) d)))
      | _, _, _, _ => None
      end
  | _ => None
  end.

Definition prefix_length (s : string) : option Z :=
  match s with
  | EmptyString => None
  | _ => match decimal 0 s with
         | Some v => if v <=? 32 then Some v else None
         | None => None
         end
  end.

Definition hostmask (len : Z) : Z := Z.ones (32 - len).

(** [a.b.c.d/len], strict: host bits must be clear; a bare address is /32. *)
Definition network_of (s : string) : option (Z * Z) :=
  match split_on "/"%char "" s with
  | [a] => match address a with Some v => Some (v, 32) | None => None end
  | [a; l] =>
      match address a, prefix_length l with
      | Some v, Some len =>
          if Z.land v (hostmask len) =? 0 then Some (v, len) else None
      | _, _ => None
      end
  | _ => None
  end.

Definition contains (n : Z * Z) (a : Z) : bool :=
  Z.shiftr a (32 - snd n) =? Z.shiftr (fst n) (32 - snd n).

#[export] Instance lib : IpAddressLib := {|
  ip_obj := Z; ip_net := Z * Z;
  ip_address := address; ip_network := network_of;
  ip_eq := Z.eqb; ip_contains := contains |}.

End IPv4.

(** ** Data model *)

(** [ResponseAction.status]: the strings "pending", "in_progress",
    "completed", "failed", "rejected". *)
Inductive Status := Pending | InProgress | Completed | Failed | Rejected.

(** [verification_status]: "pending", "approved", "rejected". *)
Inductive VStatus := VPending | VApproved | VRejected.

#[global] Instance Status_eq_dec : EqDecision Status.
Proof. solve_decision. Defined.

#[global] Instance VStatus_eq_dec : EqDecision VStatus.
Proof. solve_decision. Defined.

(** One element of [event.response_actions]: the dict appended by
    [_execute_action] and by the reject branch of [verify_action]. *)
Record LogEntry := {
  log_action_id : string;
  log_name : string;
  log_status : Status;
  log_result : option string }.

(** The details dict maps evidence keys to Python strings. Timestamps are
    clock readings; their ISO text is identified with the reading. *)
Record SecurityEvent := {
  ev_id : string;
  event_type : string;
  source : string;
  details : gmap string string;
  severity : Z;
  timestamp : nat;
  ev_status : string;
  response_actions : list LogEntry;
  ev_verification_status : VStatus;
  verification_user : option string;
  verification_time : option nat }.

(** The dict written to [events/<id>.json]. *)
Record EventDict := {
  d_id : string;
  d_event_type : string;
  d_source : string;
  d_details : gmap string string;
  d_severity : Z;
  d_timestamp : nat;
  d_status : string;
  d_response_actions : list LogEntry;
  d_verification_status : VStatus;
  d_verification_user : option string;
  d_verification_time : option nat }.

(** The constructor arguments each subclass keeps on [self]. *)
Inductive ActionParams :=
| BlockIP (ip : string) (duration : Z)
| IsolateContainer (container_id : string)
| RotateCredentials (credential_type identifier : string) (metadata : option string)
| ForensicCapture (target : string) (capture_types : list string)
| ExecutePlaybook (playbook_name : string) (parameters : gmap string string).

(** [self.__class__.__name__] *)
Definition class_name (p : ActionParams) : string :=
  match p with
  | BlockIP _ _ => "BlockIPAction"
  | IsolateContainer _ => "IsolateContainerAction"
  | RotateCredentials _ _ _ => "RotateCredentialsAction"
  | ForensicCapture _ _ => "ForensicCaptureAction"
  | ExecutePlaybook _ _ => "ExecutePlaybookAction"
  end.

(** A ResponseAction object. [self.event] is a reference to the event object
    its creator also holds; the model passes that object next to the action
    and keeps the subclass attributes in [params]. *)
Record ResponseAction := {
  id : string;
  name : string;
  status : Status;
  requires_verification : bool;
  verification_status : VStatus;
  result : option string;
  start_time : option nat;
  end_time : option nat;
  error : option string;
  params : ActionParams }.

(** What [ResponseAction.to_dict] returns: the nine base attributes. *)
Record ActionDict := {
  a_id : string;
  a_name : string;
  a_status : Status;
  a_requires_verification : bool;
  a_verification_status : VStatus;
  a_result : option string;
  a_start_time : option nat;
  a_end_time : option nat;
  a_error : option string }.

(** The content of [actions/<id>.json], written by [_save_action]. *)
Record ActionFile := {
  action : ActionDict;
  event_id : string }.

Inductive Notification :=
| EventNotice (event : string)
| VerificationRequest (event : string) (action : string)
| ActionNotice (action : string) (st : Status).

(** One invocation of a subclass's [_execute_impl]. *)
Record ImplCall := {
  call_action : string;
  call_params : ActionParams }.

(** How a call of [_execute_impl] ends: it returns its result text, or it
    raises an [Exception] (ValueError, CalledProcessError, ...) whose
    [str()] is the message. *)
Inductive ImplOutcome :=
| Returned (text : string)
| Raised (message : string).

(** Attribute assignments on an action object. *)
Definition set_id (v : string) (a : ResponseAction) : ResponseAction :=
  {| id := v; name := name a; status := status a;
     requires_verification := requires_verification a;
     verification_status := verification_status a; result := result a;
     start_time := start_time a; end_time := end_time a; error := error a;
     params := params a |}.

Definition set_status (v : Status) (a : ResponseAction) : ResponseAction :=
  {| id := id a; name := name a; status := v;
     requires_verification := requires_verification a;
     verification_status := verification_status a; result := result a;
     start_time := start_time a; end_time := end_time a; error := error a;
     params := params a |}.

Definition set_requires_verification (v : bool) (a : ResponseAction) : ResponseAction :=
  {| id := id a; name := name a; status := status a;
     requires_verification := v;
     verification_status := verification_status a; result := result a;
     start_time := start_time a; end_time := end_time a; error := error a;
     params := params a |}.

Definition set_verification_status (v : VStatus) (a : ResponseAction) : ResponseAction :=
  {| id := id a; name := name a; status := status a;
     requires_verification := requires_verification a;
     verification_status := v; result := result a;
     start_time := start_time a; end_time := end_time a; error := error a;
     params := params a |}.

Definition set_result (v : option string) (a : ResponseAction) : ResponseAction :=
  {| id := id a; name := name a; status := status a;
     requires_verification := requires_verification a;
     verification_status := verification_status a; result := v;
     start_time := start_time a; end_time := end_time a; error := error a;
     params := params a |}.

Definition set_start_time (v : option nat) (a : ResponseAction) : ResponseAction :=
  {| id := id a; name := name a; status := status a;
     requires_verification := requires_verification a;
     verification_status := verification_status a; result := result a;
     start_time := v; end_time := end_time a; error := error a;
     params := params a |}.

Definition set_end_time (v : option nat) (a : ResponseAction) : ResponseAction :=
  {| id := id a; name := name a; status := status a;
     requires_verification := requires_verification a;
     verification_status := verification_status a; result := result a;
     start_time := start_time a; end_time := v; error := error a;
     params := params a |}.

Definition set_error (v : option string) (a : ResponseAction) : ResponseAction :=
  {| id := id a; name := name a; status := status a;
     requires_verification := requires_verification a;
     verification_status := verification_status a; result := result a;
     start_time := start_time a; end_time := end_time a; error := v;
     params := params a |}.

(** [event.response_actions.append(entry)] *)
Definition append_response_action (entry : LogEntry) (e : SecurityEvent) : SecurityEvent :=
  {| ev_id := ev_id e; event_type := event_type e; source := source e;
     details := details e; severity := severity e; timestamp := timestamp e;
     ev_status := ev_status e;
     response_actions := response_actions e ++ [entry];
     ev_verification_status := ev_verification_status e;
     verification_user := verification_user e;
     verification_time := verification_time e |}.

(** ** World: the workspace directories and the observable effects *)

Record World := {
  events_dir : gmap string EventDict;
  actions_dir : gmap string ActionFile;
  outbox : list Notification;
  impl_calls : list ImplCall;
  clock : nat;
  uuids : nat;
  writes : nat }.

Definition empty_world : World := {|
  events_dir := ∅; actions_dir := ∅; outbox := []; impl_calls := [];
  clock := 0%nat; uuids := 0%nat; writes := 0%nat |}.

(** Exceptions that escape the modelled code. [OSError] stands for the
    class and its subclasses (FileNotFoundError among them). *)
Inductive exn :=
| TypeError (message : string)
| OSError
| OverflowError.

Inductive Res (A : Type) :=
| Ok (a : A)
| Exc (e : exn).
Arguments Ok {A} a.
Arguments Exc {A} e.

(** Computations read and change the world; a raise keeps the changes made
    so far, as in Python. *)
Definition M (A : Type) : Type := World -> Res A * World.

Definition ret {A} (a : A) : M A := fun w => (Ok a, w).

Definition bind {A B} (c : M A) (k : A -> M B) : M B :=
  fun w => match c w with
           | (Ok a, w') => k a w'
           | (Exc e, w') => (Exc e, w')
           end.

Definition raise {A} (e : exn) : M A := fun w => (Exc e, w).

(** [try: c  except Exception: h] *)
Definition try_except {A} (c : M A) (h : exn -> M A) : M A :=
  fun w => match c w with
           | (Ok a, w') => (Ok a, w')
           | (Exc e, w') => h e w'
           end.

Notation "x <- c ;; k" := (bind c (fun x => k))
  (at level 100, c at next level, right associativity).
Notation "c ;;; k" := (bind c (fun _ => k))
  (at level 100, right associativity).

(** How [subprocess.run([engine, "inspect", ...], check=True)] ends. *)
Inductive Inspection :=
| Reported (name : string)   (** it returned; the name, decoded and
                                 already stripped *)
| CommandFailed              (** it raised a SubprocessError *)
| LaunchFailed.              (** it raised an OSError: the engine binary is
                                 missing or cannot be started *)

(** Everything outside the script. *)
Class Externals := {
  (** the text of the n-th [uuid.uuid4()] *)
  uuid4 : nat -> string;
  (** what running [docker|podman inspect] on a container id gives *)
  inspect_name : string -> string -> Inspection;
  (** what the subprocess-driven body of [_execute_impl] does for a call,
      given the calls made before it *)
  remediation : list ImplCall -> ImplCall -> ImplOutcome;
  (** whether the n-th write of a JSON file succeeds *)
  write_ok : nat -> bool }.

(** Python's [needle in haystack] on str. *)
Fixpoint str_in (needle haystack : string) : bool :=
  String.prefix needle haystack ||
  match haystack with
  | EmptyString => false
  | String _ rest => str_in needle rest
  end.

Section Model.

Context {IP : IpAddressLib} {X : Externals}.

(** [self.config] of the manager, which every action also receives. *)
Variable config : Config.

(** *** Primitive effects *)

(** [datetime.datetime.now()] *)
Definition now : M nat := fun w =>
  (Ok (clock w),
   {| events_dir := events_dir w; actions_dir := actions_dir w;
      outbox := outbox w; impl_calls := impl_calls w;
      clock := S (clock w); uuids := uuids w; writes := writes w |}).

(** [str(uuid.uuid4())] *)
Definition new_uuid : M string := fun w =>
  (Ok (uuid4 (uuids w)),
   {| events_dir := events_dir w; actions_dir := actions_dir w;
      outbox := outbox w; impl_calls := impl_calls w;
      clock := clock w; uuids := S (uuids w); writes := writes w |}).

(** A notification handed to [_send_notification]; the transports catch
    their own exceptions, so dispatch never raises. *)
Definition notify (n : Notification) : M unit := fun w =>
  (Ok tt,
   {| events_dir := events_dir w; actions_dir := actions_dir w;
      outbox := outbox w ++ [n]; impl_calls := impl_calls w;
      clock := clock w; uuids := uuids w; writes := writes w |}).

(** *** SecurityEvent *)

(** [SecurityEvent.__init__]: severity is stored as given. *)
Definition SecurityEvent_init (event_type source : string)
    (details : gmap string string) (severity : Z) : M SecurityEvent :=
  i <- new_uuid ;;
  t <- now ;;
  ret {| ev_id := i; event_type := event_type; source := source;
         details := details; severity := severity; timestamp := t;
         ev_status := "new"; response_actions := [];
         ev_verification_status := VPending;
         verification_user := None; verification_time := None |}.

Definition event_to_dict (e : SecurityEvent) : EventDict :=
  {| d_id := ev_id e; d_event_type := event_type e; d_source := source e;
     d_details := details e; d_severity := severity e;
     d_timestamp := timestamp e; d_status := ev_status e;
     d_response_actions := response_actions e;
     d_verification_status := ev_verification_status e;
     d_verification_user := verification_user e;
     d_verification_time :=
       match verification_time e with Some t => Some t | None => None end |}.

(** [SecurityEvent.from_dict]: builds a fresh object through the
    constructor, then overwrites its attributes from the dict. *)
Definition event_from_dict (data : EventDict) : M SecurityEvent :=
  event <- SecurityEvent_init (d_event_type data) (d_source data)
             (d_details data) (d_severity data) ;;
  ret {| ev_id := d_id data;
         event_type := event_type event; source := source event;
         details := details event; severity := severity event;
         timestamp := d_timestamp data;
         ev_status := d_status data;
         response_actions := d_response_actions data;
         ev_verification_status := d_verification_status data;
         verification_user := d_verification_user data;
         verification_time :=
           match d_verification_time data with
           | Some t => Some t
           | None => verification_time event
           end |}.

(** *** ResponseAction and its subclasses *)

(** [ResponseAction.__init__], run first by every subclass constructor. *)
Definition ResponseAction_init (p : ActionParams) : M ResponseAction :=
  i <- new_uuid ;;
  ret {| id := i; name := class_name p; status := Pending;
         requires_verification := true; verification_status := VPending;
         result := None; start_time := None; end_time := None;
         error := None; params := p |}.

Definition action_to_dict (a : ResponseAction) : ActionDict :=
  {| a_id := id a; a_name := name a; a_status := status a;
     a_requires_verification := requires_verification a;
     a_verification_status := verification_status a;
     a_result := result a; a_start_time := start_time a;
     a_end_time := end_time a; a_error := error a |}.

(** The first loop of [BlockIPAction.__init__]: [None] is a ValueError
    from [ip_address(critical)]. *)
Fixpoint scan_critical_hosts (o : ip_obj) (rv : bool) (hosts : list string)
    : option bool :=
  match hosts with
  | [] => Some rv
  | critical :: rest =>
      match ip_address critical with
      | None => None
      | Some c => if ip_eq o c then Some true
                  else scan_critical_hosts o rv rest
      end
  end.

(** The second loop: [None] is a ValueError from [ip_network(trusted_net)]. *)
Fixpoint scan_trusted_ips (o : ip_obj) (rv : bool) (nets : list string)
    : option bool :=
  match nets with
  | [] => Some rv
  | trusted_net :: rest =>
      match ip_network trusted_net with
      | None => None
      | Some n => if ip_contains n o then Some true
                  else scan_trusted_ips o rv rest
      end
  end.

(** The body of the [try] in [BlockIPAction.__init__]. *)
Definition block_try (rv : bool) (ip : string) : option bool :=
  match ip_address ip with
  | None => None
  | Some o =>
      match scan_critical_hosts o rv (critical_hosts (network config)) with
      | None => None
      | Some rv1 => scan_trusted_ips o rv1 (trusted_ips (network config))
      end
  end.

Definition block_requires_verification (severity : Z) (ip : string) : bool :=
  let block_score := max_auto_block_score (network config) in
  let rv := severity <=? block_score in
  match block_try rv ip with
  | Some rv' => rv'
  | None => true   (* except ValueError *)
  end.

(** [duration or config["network"]["block_duration"]] *)
Definition duration_or_default (duration : option Z) : Z :=
  match duration with
  | Some d => if d =? 0 then block_duration (network config) else d
  | None => block_duration (network config)
  end.

Definition BlockIPAction (event : SecurityEvent) (ip : string)
    (duration : option Z) : M ResponseAction :=
  a <- ResponseAction_init (BlockIP ip (duration_or_default duration)) ;;
  ret (set_requires_verification
         (block_requires_verification (severity event) ip) a).

(** [IsolateContainerAction._get_container_name]. Its [try] catches
    [subprocess.SubprocessError] only: an OSError from starting the engine
    leaves the method, and with it the constructor. *)
Definition _get_container_name (container_id : string) : M (option string) :=
  let engine := engine (container config) in
  let run binary : M (option string) :=
    match inspect_name binary container_id with
    | Reported container_name => ret (Some container_name)
    | CommandFailed => ret None
    | LaunchFailed => raise OSError
    end in
  if String.eqb engine "docker" then run "docker"
  else if String.eqb engine "podman" then run "podman"
  else ret None.

(** [container_name and any(critical in container_name for critical in ...)] *)
Definition critical_container (container_name : option string) : bool :=
  match container_name with
  | None => false
  | Some n =>
      negb (String.eqb n "") &&
      existsb (fun critical => str_in critical n)
              (critical_containers (container config))
  end.

Definition IsolateContainerAction (event : SecurityEvent)
    (container_id : string) : M ResponseAction :=
  a <- ResponseAction_init (IsolateContainer container_id) ;;
  let isolate_score := auto_isolate_score (container config) in
  let rv := severity event <=? isolate_score in
  container_name <- _get_container_name container_id ;;
  ret (set_requires_verification
         (if critical_container container_name then true else rv) a).

(** Python truthiness of an optional str: None and the empty string are
    false. *)
Definition truthy (v : option string) : option string :=
  match v with
  | Some s => if String.eqb s "" then None else Some s
  | None => None
  end.

(** [metadata or {}]: [None] stands for the empty dict. *)
Definition RotateCredentialsAction (event : SecurityEvent)
    (credential_type identifier : string) (metadata : option string)
    : M ResponseAction :=
  a <- ResponseAction_init
         (RotateCredentials credential_type identifier (truthy metadata)) ;;
  ret (set_requires_verification
         (severity event <=? auto_rotate_score (credentials config)) a).

(** [capture_types or ["network", "process", "filesystem"]] *)
Definition capture_types_or_default (capture_types : option (list string))
    : list string :=
  match capture_types with
  | Some (t :: ts) => t :: ts
  | _ => ["network"; "process"; "filesystem"]
  end.

Definition ForensicCaptureAction (event : SecurityEvent) (target : string)
    (capture_types : option (list string)) : M ResponseAction :=
  a <- ResponseAction_init
         (ForensicCapture target (capture_types_or_default capture_types)) ;;
  ret (set_requires_verification false a).

Definition ExecutePlaybookAction (event : SecurityEvent)
    (playbook_name : string) (parameters : option (gmap string string))
    : M ResponseAction :=
  a <- ResponseAction_init
         (ExecutePlaybook playbook_name (default ∅ parameters)) ;;
  ret (set_requires_verification
         (severity event <=? auto_execute_score (playbooks config)) a).

(** *** Execution *)

Definition call_of (a : ResponseAction) : ImplCall :=
  {| call_action := id a; call_params := params a |}.

(** What the subclass's [_execute_impl] does for an action, given the
    calls made so far. ExecutePlaybookAction first looks the playbook up
    in the registry; everything after that, and the whole body of the
    other subclasses, is subprocess work. A [Raised] outcome is an
    exception inside the [try] of [execute]. *)
Definition impl_outcome (a : ResponseAction) (history : list ImplCall)
    : ImplOutcome :=
  match params a with
  | ExecutePlaybook playbook_name _ =>
      match available (playbooks config) !! playbook_name with
      | None => Raised ("Playbook '" ++ playbook_name
                        ++ "' not found in available playbooks")
      | Some _ => remediation history (call_of a)
      end
  | _ => remediation history (call_of a)
  end.

(** A call of [self._execute_impl()], recorded in [impl_calls]. *)
Definition _execute_impl (a : ResponseAction) : M ImplOutcome := fun w =>
  (Ok (impl_outcome a (impl_calls w)),
   {| events_dir := events_dir w; actions_dir := actions_dir w;
      outbox := outbox w; impl_calls := impl_calls w ++ [call_of a];
      clock := clock w; uuids := uuids w; writes := writes w |}).

(** [execute], the two assignments before the [try]. *)
Definition execute_begin (a : ResponseAction) : M ResponseAction :=
  t <- now ;;
  ret (set_status InProgress (set_start_time (Some t) a)).

(** [execute], the [try] with its [except Exception]. *)
Definition execute_try (a : ResponseAction) : M (bool * ResponseAction) :=
  if dry_run (general config) then
    ret (true, set_status Completed
                 (set_result (Some "Skipped (dry run mode)") a))
  else
    r <- _execute_impl a ;;
    match r with
    | Returned text =>
        ret (true, set_status Completed (set_result (Some text) a))
    | Raised message =>
        ret (false, set_status Failed (set_error (Some message) a))
    end.

(** [ResponseAction.execute]; the [finally] stamps [end_time]. *)
Definition execute (a : ResponseAction) : M (bool * ResponseAction) :=
  a <- execute_begin a ;;
  r <- execute_try a ;;
  t <- now ;;
  ret (fst r, set_end_time (Some t) (snd r)).

(** *** SecurityResponseManager: the store *)

(** Opening or writing the file may fail with OSError; the file is then
    left as it was. *)
Definition _save_event (event : SecurityEvent) : M unit := fun w =>
  if write_ok (writes w) then
    (Ok tt,
     {| events_dir := <[ev_id event := event_to_dict event]> (events_dir w);
        actions_dir := actions_dir w;
        outbox := outbox w; impl_calls := impl_calls w;
        clock := clock w; uuids := uuids w; writes := S (writes w) |})
  else
    (Exc OSError,
     {| events_dir := events_dir w; actions_dir := actions_dir w;
        outbox := outbox w; impl_calls := impl_calls w;
        clock := clock w; uuids := uuids w; writes := S (writes w) |}).

Definition _save_action (a : ResponseAction) (event : SecurityEvent)
    : M unit := fun w =>
  let data := {| action := action_to_dict a; event_id := ev_id event |} in
  if write_ok (writes w) then
    (Ok tt,
     {| events_dir := events_dir w;
        actions_dir := <[id a := data]> (actions_dir w);
        outbox := outbox w; impl_calls := impl_calls w;
        clock := clock w; uuids := uuids w; writes := S (writes w) |})
  else
    (Exc OSError,
     {| events_dir := events_dir w; actions_dir := actions_dir w;
        outbox := outbox w; impl_calls := impl_calls w;
        clock := clock w; uuids := uuids w; writes := S (writes w) |}).

Definition read_action (action_id : string) : M (option ActionFile) :=
  fun w => (Ok (actions_dir w !! action_id), w).

Definition read_event (event_id : string) : M (option EventDict) :=
  fun w => (Ok (events_dir w !! event_id), w).

Definition executed_entry (a : ResponseAction) : LogEntry :=
  {| log_action_id := id a; log_name := name a;
     log_status := status a; log_result := result a |}.

(** [_execute_action]. One [try ... except Exception: return False] wraps
    the whole body; the handlers below differ only in how far the action
    and event objects had been updated when the exception arrived. The
    objects are returned next to the bool because the callers keep using
    them. *)
Definition _execute_action (a : ResponseAction) (event : SecurityEvent)
    : M (bool * ResponseAction * SecurityEvent) :=
  try_except
    (r <- execute a ;;
     let a := snd r in
     try_except
       (_save_action a event ;;;
        let event := append_response_action (executed_entry a) event in
        try_except
          (_save_event event ;;;
           notify (ActionNotice (id a) (status a)) ;;;
           ret (fst r, a, event))
          (fun _ => ret (false, a, event)))
       (fun _ => ret (false, a, event)))
    (fun _ => ret (false, a, event)).

(** *** SecurityResponseManager: policy and orchestration *)

(** The [if]/[elif] chain of [_determine_response_actions]: the actions
    chosen by event type. An unlisted type falls through with no action. *)
Definition actions_for_type (event : SecurityEvent)
    : M (list ResponseAction) :=
  let get k := truthy (details event !! k) in
  let auto := auto_capture (forensics config) in
  let playbook_if_available nm : M (list ResponseAction) :=
    match available (playbooks config) !! nm with
    | Some _ => a <- ExecutePlaybookAction event nm (Some (details event)) ;;
                ret [a]
    | None => ret []
    end in
  let block_if_present k : M (list ResponseAction) :=
    match get k with
    | Some ip => a <- BlockIPAction event ip None ;; ret [a]
    | None => ret []
    end in
  let ty := event_type event in
  if String.eqb ty "suspicious_ip" then
    match get "ip_address" with
    | Some ip =>
        a <- BlockIPAction event ip None ;;
        if auto then
          f <- ForensicCaptureAction event ip (Some ["network"]) ;;
          ret [a; f]
        else ret [a]
    | None => ret []
    end
  else if String.eqb ty "compromised_container" then
    match get "container_id" with
    | Some container_id =>
        a <- IsolateContainerAction event container_id ;;
        if auto then
          f <- ForensicCaptureAction event ("container:" ++ container_id)
                 (Some ["network"; "process"; "filesystem"]) ;;
          ret [a; f]
        else ret [a]
    | None => ret []
    end
  else if String.eqb ty "credential_compromise" then
    match get "credential_type", get "identifier" with
    | Some cred_type, Some identifier =>
        a <- RotateCredentialsAction event cred_type identifier
               (details event !! "metadata") ;;
        ret [a]
    | _, _ => ret []
    end
  else if String.eqb ty "malware_detection" then
    l1 <- playbook_if_available "malware_detection" ;;
    if auto then
      let target := default (source event) (get "target") in
      f <- ForensicCaptureAction event target
             (Some ["process"; "filesystem"]) ;;
      ret (l1 ++ [f])%list
    else ret l1
  else if String.eqb ty "unauthorized_access" then
    l1 <- playbook_if_available "unauthorized_access" ;;
    l2 <- block_if_present "ip_address" ;;
    ret (l1 ++ l2)%list
  else if String.eqb ty "data_exfiltration" then
    l1 <- playbook_if_available "data_exfiltration" ;;
    l2 <- block_if_present "destination_ip" ;;
    ret (l1 ++ l2)%list
  else ret [].

(** The trailing block: a suggested playbook is run for any event type. *)
Definition suggested_playbook_action (event : SecurityEvent)
    : M (list ResponseAction) :=
  match truthy (details event !! "suggested_playbook") with
  | Some playbook =>
      match available (playbooks config) !! playbook with
      | Some _ =>
          a <- ExecutePlaybookAction event playbook (Some (details event)) ;;
          ret [a]
      | None => ret []
      end
  | None => ret []
  end.

Definition _determine_response_actions (event : SecurityEvent)
    : M (list ResponseAction) :=
  l1 <- actions_for_type event ;;
  l2 <- suggested_playbook_action event ;;
  ret (l1 ++ l2)%list.

(** One iteration of the [for action in actions] loop of
    [handle_security_event]. *)
Definition handle_one (a : ResponseAction) (event : SecurityEvent)
    : M (ResponseAction * SecurityEvent) :=
  if negb (requires_verification a) then
    r <- _execute_action a event ;;
    ret (snd (fst r), snd r)
  else
    _save_action a event ;;;
    notify (VerificationRequest (ev_id event) (id a)) ;;;
    ret (a, event).

(** The loop; it returns the action objects and the event object as the
    loop leaves them. *)
Fixpoint handle_loop (actions : list ResponseAction) (event : SecurityEvent)
    : M (list ResponseAction * SecurityEvent) :=
  match actions with
  | [] => ret ([], event)
  | a :: rest =>
      r <- handle_one a event ;;
      r' <- handle_loop rest (snd r) ;;
      ret (fst r :: fst r', snd r')
  end.

Definition handle_security_event (event : SecurityEvent) : M string :=
  _save_event event ;;;
  notify (EventNotice (ev_id event)) ;;;
  actions <- _determine_response_actions event ;;
  handle_loop actions event ;;;
  ret (ev_id event).

(** [action_class(event, self.config, "placeholder")] for the class that
    [globals().get(action_type)] finds, [action_type] being one of the five
    class names [to_dict] can have written; [None] when the name is not
    defined. RotateCredentialsAction has two required parameters after
    [config], so the call raises TypeError before its body runs. *)
Definition reconstruct (action_type : string) (event : SecurityEvent)
    : option (M ResponseAction) :=
  if String.eqb action_type "BlockIPAction" then
    Some (BlockIPAction event "placeholder" None)
  else if String.eqb action_type "IsolateContainerAction" then
    Some (IsolateContainerAction event "placeholder")
  else if String.eqb action_type "RotateCredentialsAction" then
    Some (raise (TypeError
      "__init__() missing 1 required positional argument: 'identifier'"))
  else if String.eqb action_type "ForensicCaptureAction" then
    Some (ForensicCaptureAction event "placeholder" None)
  else if String.eqb action_type "ExecutePlaybookAction" then
    Some (ExecutePlaybookAction event "placeholder" None)
  else None.

Definition rejected_entry (a : ResponseAction) : LogEntry :=
  {| log_action_id := id a; log_name := name a;
     log_status := status a;
     log_result := Some "Action rejected by user" |}.

(** [verify_action]. Its [except (JSONDecodeError, KeyError, ValueError)]
    has nothing to catch here: the records are well-formed, and neither
    TypeError nor OSError is in that tuple. *)
Definition verify_action (action_id : string) (approve : bool)
    (user : string) : M bool :=
  f <- read_action action_id ;;
  match f with
  | None => ret false
  | Some data =>
      e <- read_event (event_id data) ;;
      match e with
      | None => ret false
      | Some event_data =>
          event <- event_from_dict event_data ;;
          match reconstruct (a_name (action data)) event with
          | None => ret false
          | Some construct =>
              a <- construct ;;
              let a := set_id action_id a in
              let a := set_status (a_status (action data)) a in
              let a := set_verification_status
                         (if approve then VApproved else VRejected) a in
              if approve then
                r <- _execute_action a event ;;
                ret (fst (fst r))
              else
                let a := set_status Rejected a in
                _save_action a event ;;;
                let event := append_response_action (rejected_entry a) event in
                _save_event event ;;;
                ret true
          end
      end
  end.

(** The [handle-event] command of [main]. *)
Definition submit (event_type source : string)
    (details : gmap string string) (severity : Z) : M string :=
  event <- SecurityEvent_init event_type source details severity ;;
  handle_security_event event.

End Model.

(** A constructor call returns an object with property [P]. *)
Definition builds (c : M ResponseAction) (w : World)
    (P : ResponseAction -> Prop) : Prop :=
  exists a w', c w = (Ok a, w') /\ P a.

(** The world after [k] further uuids have been drawn. *)
Definition add_uuids (k : nat) (w : World) : World :=
  {| events_dir := events_dir w; actions_dir := actions_dir w;
     outbox := outbox w; impl_calls := impl_calls w;
     clock := clock w; uuids := (k + uuids w)%nat; writes := writes w |}.

(** A computation that returns normally and only draws uuids. *)
Definition allocates {A} (c : M A) : Prop :=
  forall w, exists a k, c w = (Ok a, add_uuids k w).

(** A computation that only draws uuids, whether it returns or raises. *)
Definition draws {A} (c : M A) : Prop :=
  forall w, exists r k, c w = (r, add_uuids k w).

(** The store invariant of the auto-execute path: no action file records an
    action that needs no verification and is still pending. *)
Definition no_auto_pending (w : World) : Prop :=
  forall i f,
    actions_dir w !! i = Some f ->
    a_requires_verification (action f) = false ->
    a_status (action f) <> Pending.

(** The event file [i] exists and records severity [s]. *)
Definition severity_filed (i : string) (s : Z) (w : World) : Prop :=
  exists d, events_dir w !! i = Some d /\ d_id d = i /\ d_severity d = s.


(** The classes whose constructor takes one argument after [config], which
    is how [verify_action] calls it. *)
Definition one_argument_classes : list string :=
  ["BlockIPAction"; "IsolateContainerAction"; "ForensicCaptureAction";
   "ExecutePlaybookAction"].

(** ** The protected lists, as the specification words them *)

Section Protected.

Context {IP : IpAddressLib} {X : Externals}.
Variable config : Config.

(** What the configured engine gives for a container id; [None] when the
    configuration names neither docker nor podman, so that nothing is
    run. *)
Definition engine_report (container_id : string) : option Inspection :=
  let engine := engine (container config) in
  if String.eqb engine "docker" then Some (inspect_name "docker" container_id)
  else if String.eqb engine "podman"
       then Some (inspect_name "podman" container_id)
  else None.

(** Asking for the name of the container fails to start the engine. *)
Definition launch_fails (container_id : string) : bool :=
  match engine_report container_id with
  | Some LaunchFailed => true
  | _ => false
  end.

(** Deriving the actions of the event runs into such a failure: only a
    compromised-container event with a container id asks the engine. *)
Definition event_launch_fails (event : SecurityEvent) : bool :=
  String.eqb (event_type event) "compromised_container" &&
  match truthy (details event !! "container_id") with
  | Some container_id => launch_fails container_id
  | None => false
  end.

(** The constructor call of [verify_action] runs into such a failure: it
    asks the engine about the text "placeholder" when the stored class is
    IsolateContainerAction. *)
Definition reload_launch_fails (action_type : string) : bool :=
  String.eqb action_type "IsolateContainerAction" &&
  launch_fails "placeholder".

(** An address is protected when it equals a critical host or lies in a
    trusted range; a container when the name the engine reports for it
    contains a critical container name. Entries that do not parse protect
    nothing. *)
Definition is_critical_host (o : ip_obj) (critical : string) : bool :=
  match ip_address critical with
  | Some c => ip_eq o c
  | None => false
  end.

Definition in_trusted_net (o : ip_obj) (trusted_net : string) : bool :=
  match ip_network trusted_net with
  | Some n => ip_contains n o
  | None => false
  end.

Definition ip_protected (ip : string) : bool :=
  match ip_address ip with
  | Some o =>
      existsb (is_critical_host o) (critical_hosts (network config)) ||
      existsb (in_trusted_net o) (trusted_ips (network config))
  | None => false
  end.

Definition container_protected (container_id : string) : bool :=
  match engine_report container_id with
  | Some (Reported n) =>
      negb (String.eqb n "") &&
      existsb (fun critical => str_in critical n)
              (critical_containers (container config))
  | _ => false
  end.

(** The [try] of [BlockIPAction.__init__] ended in [except ValueError]. *)
Definition block_value_error (ip : string) : bool :=
  match block_try config false ip with
  | Some _ => false
  | None => true
  end.

End Protected.

(** ** A concrete environment, for running the model *)

Module Demo.

#[export] Instance env : Externals := {|
  uuid4 n := ("uuid-" ++ pretty n)%string;
  inspect_name engine container_id :=
    if String.eqb container_id "c0ffee" then Reported "pihole-dns"
    else if String.eqb container_id "web01" then Reported "web"
    else CommandFailed;
  remediation history call :=
    match call_params call with
    | BlockIP ip _ =>
        match IPv4.address ip with
        | Some _ => Returned ("IP " ++ ip ++ " blocked with iptables")%string
        | None => Raised ("iptables: host/network `" ++ ip ++ "' not found")%string
        end
    | IsolateContainer c => Raised ("Command 'docker export " ++ c ++ "' failed"%string)
    | RotateCredentials _ i _ => Returned ("Rotated credentials for " ++ i%string)
    | ForensicCapture t _ => Returned ("Forensic data captured for " ++ t%string)
    | ExecutePlaybook p _ => Returned ("Playbook " ++ p ++ " executed successfully"%string)
    end;
  write_ok _ := true |}.

Definition ip_event_details : gmap string string :=
  {[ "ip_address" := "203.0.113.42" ]}.

Definition credential_details : gmap string string :=
  {[ "credential_type" := "system_user"; "identifier" := "alice" ]}.

(** The store after a suspicious-ip event of severity 60: the block is
    pending under ["uuid-1"], the capture ran under ["uuid-2"]. *)
Definition pending_block_world : World :=
  snd (@submit IPv4.lib env DEFAULT_CONFIG "suspicious_ip" "firewall"
         ip_event_details 60 empty_world).

(** The store after the same event at severity 75: the block ran. *)
Definition completed_block_world : World :=
  snd (@submit IPv4.lib env DEFAULT_CONFIG "suspicious_ip" "firewall"
         ip_event_details 75 empty_world).

(** The store after a credential compromise of severity 0: the rotation
    is pending under ["uuid-1"]. *)
Definition pending_rotate_world : World :=
  snd (@submit IPv4.lib env DEFAULT_CONFIG "credential_compromise"
         "auth-monitor" credential_details 0 empty_world).



(** An event object as [SecurityEvent.__init__] leaves it. *)
Definition event (ty : string) (details : gmap string string) (sev : Z)
    : SecurityEvent :=
  {| ev_id := "event-1"; event_type := ty; source := "firewall";
     details := details; severity := sev; timestamp := 0%nat;
     ev_status := "new"; response_actions := [];
     ev_verification_status := VPending;
     verification_user := None; verification_time := None |}.

End Demo.

(** ** The rest of the manager: listing and cleaning the store *)

(** The [event_info] dict of [list_pending_actions]. *)
Record EventInfo := {
  info_id : string;
  info_type : string;
  info_source : string;
  info_severity : Z;
  info_timestamp : nat }.

(** One element of the list [list_pending_actions] returns; [pending_event]
    is [None] for the empty dict used when the event file is missing. *)
Record PendingEntry := {
  pending_action_id : string;
  pending_action_name : string;
  pending_event : option EventInfo;
  pending_status : Status }.

Definition event_info (d : EventDict) : EventInfo :=
  {| info_id := d_id d; info_type := d_event_type d;
     info_source := d_source d; info_severity := d_severity d;
     info_timestamp := d_timestamp d |}.

(** The body of the loop of [list_pending_actions] for one action file. *)
Definition pending_entry (events : gmap string EventDict) (data : ActionFile)
    : option PendingEntry :=
  let a := action data in
  if bool_decide (a_verification_status a = VPending)
     && a_requires_verification a
  then Some {| pending_action_id := a_id a;
               pending_action_name := a_name a;
               pending_event := event_info <$> events !! event_id data;
               pending_status := a_status a |}
  else None.

(** [list_pending_actions]: the files of [actions/] in the order the
    directory listing gives them, here the order of [map_to_list]. *)
Definition list_pending_actions : M (list PendingEntry) := fun w =>
  (Ok (omap (fun kf => pending_entry (events_dir w) (snd kf))
            (map_to_list (actions_dir w))), w).

(** [timestamp < cutoff] on a stored event. *)
Definition event_is_old (cutoff : Z) (d : EventDict) : bool :=
  Z.of_nat (d_timestamp d) <? cutoff.

(** The first loop of [clean_old_events] over the listed event files:
    unlink the old ones and count them. *)
Definition clean_events_loop (cutoff : Z) (files : list (string * EventDict))
    (events : gmap string EventDict) (count : nat)
    : gmap string EventDict * nat :=
  fold_left
    (fun st kd =>
       if event_is_old cutoff (snd kd)
       then (delete (fst kd) (fst st), S (snd st))
       else st)
    files (events, count).

(** The second loop, over the listed action files: unlink those whose event
    file no longer exists. *)
Definition clean_actions_loop (events : gmap string EventDict)
    (files : list (string * ActionFile)) (actions : gmap string ActionFile)
    : gmap string ActionFile :=
  fold_left
    (fun acts kf =>
       match events !! event_id (snd kf) with
       | Some _ => acts
       | None => delete (fst kf) acts
       end)
    files actions.

(** [clean_old_events] once the cutoff is known. *)
Definition clean_before (cutoff : Z) : M nat := fun w =>
  let r := clean_events_loop cutoff (map_to_list (events_dir w))
             (events_dir w) 0%nat in
  let actions := clean_actions_loop (fst r) (map_to_list (actions_dir w))
                   (actions_dir w) in
  (Ok (snd r),
   {| events_dir := fst r; actions_dir := actions;
      outbox := outbox w; impl_calls := impl_calls w;
      clock := clock w; uuids := uuids w; writes := writes w |}).

(** [datetime.timedelta(days=days)], in clock ticks, [ticks_per_day] of
    them to the day; [None] is the OverflowError for more than 999999999
    days either way. *)
Definition timedelta_days (ticks_per_day days : Z) : option Z :=
  if Z.abs days <=? 999999999 then Some (days * ticks_per_day) else None.

(** The clock counts ticks from [datetime.min], the start of day 1; the
    last tick a [datetime] can hold is the end of 9999-12-31, which is day
    3652059. *)
Definition datetime_max (ticks_per_day : Z) : Z :=
  3652059 * ticks_per_day - 1.

(** [t - delta] on a datetime; [None] is the OverflowError for a result
    that is no datetime. *)
Definition datetime_sub (ticks_per_day t delta : Z) : option Z :=
  let r := t - delta in
  if (0 <=? r) && (r <=? datetime_max ticks_per_day) then Some r else None.

(** [clean_old_events(days)]. The cutoff is
    [datetime.now() - timedelta(days=days)]: the clock is read, then the
    timedelta is built, then subtracted; either step can raise
    OverflowError, before any file is looked at. *)
Definition clean_old_events (ticks_per_day : Z) (days : Z) : M nat :=
  t <- now ;;
  match timedelta_days ticks_per_day days with
  | None => raise OverflowError
  | Some delta =>
      match datetime_sub ticks_per_day (Z.of_nat t) delta with
      | None => raise OverflowError
      | Some cutoff => clean_before cutoff
      end
  end.

(** The cutoff of [clean_old_events(days)] can be computed: the number of
    days is one a timedelta can hold, and the cutoff is a datetime. *)
Definition cutoff_in_range (ticks_per_day days : Z) (w : World) : Prop :=
  Z.abs days <= 999999999 /\
  0 <= Z.of_nat (clock w) - days * ticks_per_day
    <= datetime_max ticks_per_day.

(** Every action file is stored under its own id. *)
Definition actions_keyed (w : World) : Prop :=
  forall k f, actions_dir w !! k = Some f -> a_id (action f) = k.

(** No action file refers to an event that has no file. *)
Definition no_orphan_actions (w : World) : Prop :=
  forall k f, actions_dir w !! k = Some f ->
              is_Some (events_dir w !! event_id f).

(** What [list_pending_actions] shows has not been run: a file that still
    asks for verification records a pending action without result. *)
Definition listed_is_unexecuted (w : World) : Prop :=
  forall k f,
    actions_dir w !! k = Some f ->
    a_requires_verification (action f) = true ->
    a_verification_status (action f) = VPending ->
    a_status (action f) = Pending /\ a_result (action f) = None /\
    a_start_time (action f) = None.

(** ** Vocabulary for the audit trail *)

(** An action object as its constructor leaves it. *)
Definition unstarted (a : ResponseAction) : Prop :=
  status a = Pending /\ verification_status a = VPending /\
  result a = None /\ error a = None /\
  start_time a = None /\ end_time a = None /\
  name a = class_name (params a).

(** An action the loop of [handle_security_event] executes at once. *)
Definition auto (a : ResponseAction) : bool := negb (requires_verification a).

(** How the loop leaves an action of the list. *)
Definition processed (a a' : ResponseAction) : Prop :=
  (id a' = id a /\ name a' = name a /\ params a' = params a /\
   requires_verification a' = requires_verification a) /\
  (requires_verification a = true -> a' = a) /\
  (requires_verification a = false ->
   status a' = Completed \/ status a' = Failed).

(** The event object after the log entries of the executed actions [done]
    have been appended, oldest first. *)
Definition logged (event : SecurityEvent) (done : list ResponseAction)
    : SecurityEvent :=
  fold_left (fun e a => append_response_action (executed_entry a) e)
            done event.

(** The notification the loop of [handle_security_event] sends for an
    action, given the object as the loop leaves it. *)
Definition notice_for (event : string) (a : ResponseAction) : Notification :=
  if requires_verification a then VerificationRequest event (id a)
  else ActionNotice (id a) (status a).

(** The file [_save_action] writes for an action of an event. *)
Definition action_file (a : ResponseAction) (event : SecurityEvent)
    : ActionFile :=
  {| action := action_to_dict a; event_id := ev_id event |}.




(** ** Configuration files: [_merge_configs] *)

(** A JSON configuration value: a dict, kept in insertion order, or anything
    else, kept as its text. *)
#[warnings="-register-all"]
Inductive cfg_value :=
| CLeaf (text : string)
| CDict (items : list (string * cfg_value)).

(** [d.get(key)] *)
Fixpoint dict_get (key : string) (d : list (string * cfg_value))
    : option cfg_value :=
  match d with
  | [] => None
  | (k, v) :: rest => if String.eqb k key then Some v else dict_get key rest
  end.

(** [d[key] = value]: an existing key keeps its place, a new one goes last. *)
Fixpoint dict_set (key : string) (value : cfg_value)
    (d : list (string * cfg_value)) : list (string * cfg_value) :=
  match d with
  | [] => [(key, value)]
  | (k, v) :: rest =>
      if String.eqb k key then (k, value) :: rest
      else (k, v) :: dict_set key value rest
  end.

(** What [base[key]] holds after the loop body of [_merge_configs] has seen
    [key, value]: the merged dict when both sides are dicts (the recursive
    call works on [base[key]] in place), otherwise [value]. *)
Fixpoint merged_entry (value : cfg_value) (old : option cfg_value)
    : cfg_value :=
  match value, old with
  | CDict update, Some (CDict base) =>
      CDict
        ((fix loop (items base : list (string * cfg_value)) :=
            match items with
            | [] => base
            | (key, value') :: rest =>
                loop rest
                  (dict_set key (merged_entry value' (dict_get key base)) base)
            end) update base)
  | _, _ => value
  end.

(** [_merge_configs(base, update)]; the result is [base] as the call leaves
    it. *)
Fixpoint _merge_configs (base update : list (string * cfg_value))
    : list (string * cfg_value) :=
  match update with
  | [] => base
  | (key, value) :: rest =>
      _merge_configs
        (dict_set key (merged_entry value (dict_get key base)) base) rest
  end.

(** ** Small text functions *)

(** A character [re.sub(r'[^a-zA-Z0-9_-]', '_', ...)] leaves alone. *)
Definition is_safe_char (c : ascii) : bool :=
  let n := nat_of_ascii c in
  ((97 <=? n) && (n <=? 122) || (65 <=? n) && (n <=? 90)
   || (48 <=? n) && (n <=? 57) || (n =? 95) || (n =? 45))%nat.

(** [target_safe] of [ForensicCaptureAction._execute_impl], on ASCII text. *)
Fixpoint target_safe (target : string) : string :=
  match target with
  | EmptyString => EmptyString
  | String c rest =>
      String (if is_safe_char c then c else "_"%char) (target_safe rest)
  end.

(** A defaults dict and a user file, for running [_merge_configs]. *)
Module DemoConfig.

Definition defaults : list (string * cfg_value) :=
  [("general", CDict [("dry_run", CLeaf "false")]);
   ("network", CDict [("block_duration", CLeaf "3600");
                      ("max_auto_block_score", CLeaf "70")])].

Definition user_file : list (string * cfg_value) :=
  [("network", CDict [("max_auto_block_score", CLeaf "50")]);
   ("site", CLeaf "lab")].

End DemoConfig.

(** More concrete inputs: a disk that refuses every write, an action that
    awaits verification, and a small store holding it and its event. *)
Module DemoMore.


(** A host without the container engine. *)
Definition no_engine_env : Externals := {|
  uuid4 := @uuid4 Demo.env;
  inspect_name _ _ := LaunchFailed;
  remediation := @remediation Demo.env;
  write_ok := @write_ok Demo.env |}.

Definition isolate_file : ActionFile :=
  {| action :=
       {| a_id := "action-5"; a_name := "IsolateContainerAction";
          a_status := Pending; a_requires_verification := true;
          a_verification_status := VPending; a_result := None;
          a_start_time := None; a_end_time := None; a_error := None |};
     event_id := "event-1" |}.

Definition block_action : ResponseAction :=
  {| id := "action-3"; name := "BlockIPAction"; status := Pending;
     requires_verification := true; verification_status := VPending;
     result := None; start_time := None; end_time := None; error := None;
     params := BlockIP "203.0.113.42" 3600 |}.

Definition fresh_capture : ResponseAction :=
  {| id := "action-4"; name := "ForensicCaptureAction"; status := Pending;
     requires_verification := false; verification_status := VPending;
     result := None; start_time := None; end_time := None; error := None;
     params := ForensicCapture "203.0.113.42" ["network"] |}.

Definition stored_event : SecurityEvent :=
  Demo.event "suspicious_ip" Demo.ip_event_details 60.

Definition small_world : World :=
  {| events_dir := {[ "event-1" := event_to_dict stored_event ]};
     actions_dir := {[ "action-3" := action_file block_action stored_event ]};
     outbox := []; impl_calls := [];
     clock := 10%nat; uuids := 5%nat; writes := 0%nat |}.

Definition malware_event : SecurityEvent :=
  Demo.event "malware_detection"
    {[ "suggested_playbook" := "malware_detection" ]} 95.

Definition bare_ip_event : SecurityEvent :=
  Demo.event "suspicious_ip" ∅ 75.

Definition container_event : SecurityEvent :=
  Demo.event "compromised_container" {[ "container_id" := "web01" ]} 95.

(** The store of [small_world] with a pending isolation besides. *)
Definition isolation_world : World :=
  {| events_dir := {[ "event-1" := event_to_dict container_event ]};
     actions_dir := {[ "action-5" := isolate_file ]};
     outbox := []; impl_calls := [];
     clock := 10%nat; uuids := 5%nat; writes := 0%nat |}.

End DemoMore.

(** * Theorems *)

(** ** The IPv4 instance on examples *)

Example ipv4_parse_ok : IPv4.address "192.168.1.1" = Some 3232235777.
Proof. reflexivity. Qed.

Example ipv4_parse_bad : IPv4.address "placeholder" = None.
Proof. reflexivity. Qed.

Example ipv4_net_ok : IPv4.network_of "192.168.1.0/24" = Some (3232235776, 24).
Proof. reflexivity. Qed.

Example ipv4_net_hostbits : IPv4.network_of "192.168.1.5/24" = None.
Proof. reflexivity. Qed.

Example ipv4_in_net :
  IPv4.contains (3232235776, 24) 3232235777 = true /\
  IPv4.contains (3232235776, 24) 3405803818 = false.
Proof. split; reflexivity. Qed.

(** ** The verification gate *)

Section Policy.

Context {IP : IpAddressLib} {X : Externals}.
Variable config : Config.

Lemma scan_critical_hosts_Some o rv hosts rv' :
  scan_critical_hosts o rv hosts = Some rv' ->
  rv' = rv || existsb (is_critical_host o) hosts.
Proof.
  induction hosts as [|c rest IH]; simpl.
  - intros [= <-]. now rewrite orb_false_r.
  - unfold is_critical_host at 1.
    destruct (ip_address c) as [c'|]; [|discriminate].
    destruct (ip_eq o c').
    + intros [= <-]. now rewrite orb_true_r.
    + intros Hs. now apply IH.
Qed.

Lemma scan_trusted_ips_Some o rv nets rv' :
  scan_trusted_ips o rv nets = Some rv' ->
  rv' = rv || existsb (in_trusted_net o) nets.
Proof.
  induction nets as [|n rest IH]; simpl.
  - intros [= <-]. now rewrite orb_false_r.
  - unfold in_trusted_net at 1.
    destruct (ip_network n) as [n'|]; [|discriminate].
    destruct (ip_contains n' o).
    + intros [= <-]. now rewrite orb_true_r.
    + intros Hs. now apply IH.
Qed.

(** Whether a scan raises does not depend on the flag it carries. *)
Lemma scan_critical_hosts_None o rv rv' hosts :
  scan_critical_hosts o rv hosts = None ->
  scan_critical_hosts o rv' hosts = None.
Proof.
  induction hosts as [|c rest IH]; simpl; [discriminate|].
  destruct (ip_address c) as [c'|]; [|reflexivity].
  destruct (ip_eq o c'); [discriminate|exact IH].
Qed.

Lemma scan_trusted_ips_None o rv rv' nets :
  scan_trusted_ips o rv nets = None ->
  scan_trusted_ips o rv' nets = None.
Proof.
  induction nets as [|n rest IH]; simpl; [discriminate|].
  destruct (ip_network n) as [n'|]; [|reflexivity].
  destruct (ip_contains n' o); [discriminate|exact IH].
Qed.

Lemma block_try_None rv rv' ip :
  block_try config rv ip = None -> block_try config rv' ip = None.
Proof.
  unfold block_try. destruct (ip_address ip) as [o|]; [|reflexivity].
  destruct (scan_critical_hosts o rv _) as [r1|] eqn:E1.
  - destruct (scan_critical_hosts o rv' _) as [r1'|] eqn:E1'; [|reflexivity].
    apply scan_trusted_ips_None.
  - intros _. now rewrite (scan_critical_hosts_None _ _ rv' _ E1).
Qed.

Lemma block_try_Some rv ip rv' :
  block_try config rv ip = Some rv' -> rv' = rv || ip_protected config ip.
Proof.
  unfold block_try, ip_protected.
  destruct (ip_address ip) as [o|]; [|discriminate].
  destruct (scan_critical_hosts o rv _) as [r1|] eqn:E1; [|discriminate].
  intros E2. apply scan_critical_hosts_Some in E1.
  apply scan_trusted_ips_Some in E2. subst. now rewrite orb_assoc.
Qed.

(** The decision of BlockIPAction in closed form. *)
Lemma block_requires_verification_spec (sev : Z) (ip : string) :
  block_requires_verification config sev ip =
  (sev <=? max_auto_block_score (network config))
  || ip_protected config ip || block_value_error config ip.
Proof.
  unfold block_requires_verification, block_value_error.
  destruct (block_try config (sev <=? _) ip) as [rv'|] eqn:E.
  - destruct (block_try config false ip) eqn:E'.
    + apply block_try_Some in E. subst rv'. now rewrite orb_false_r.
    + apply (block_try_None _ (sev <=? max_auto_block_score (network config)))
        in E'. congruence.
  - rewrite (block_try_None _ false _ E). now rewrite orb_true_r.
Qed.

(** When the target and every protected-list entry parse, the [try] runs to
    its end. *)
Lemma block_try_well_formed rv ip :
  is_Some (ip_address ip) ->
  Forall (fun c => is_Some (ip_address c)) (critical_hosts (network config)) ->
  Forall (fun n => is_Some (ip_network n)) (trusted_ips (network config)) ->
  is_Some (block_try config rv ip).
Proof.
  intros [o Ho] Hc Ht. unfold block_try. rewrite Ho.
  assert (H1 : forall r, is_Some (scan_critical_hosts o r
                            (critical_hosts (network config)))).
  { induction Hc as [|c rest [c' Hc'] _ IH]; intros r; simpl; [eauto|].
    rewrite Hc'. destruct (ip_eq o c'); [eauto|apply IH]. }
  assert (H2 : forall r, is_Some (scan_trusted_ips o r
                            (trusted_ips (network config)))).
  { induction Ht as [|n rest [n' Hn'] _ IH]; intros r; simpl; [eauto|].
    rewrite Hn'. destruct (ip_contains n' o); [eauto|apply IH]. }
  destruct (H1 rv) as [r1 ->]. apply H2.
Qed.

(** So for a well-formed target and configuration the decision is the
    threshold comparison or-ed with the protected lists, nothing else. *)
Lemma block_requires_verification_well_formed (sev : Z) (ip : string) :
  is_Some (ip_address ip) ->
  Forall (fun c => is_Some (ip_address c)) (critical_hosts (network config)) ->
  Forall (fun n => is_Some (ip_network n)) (trusted_ips (network config)) ->
  block_requires_verification config sev ip =
  (sev <=? max_auto_block_score (network config)) || ip_protected config ip.
Proof.
  intros Hip Hc Ht. rewrite block_requires_verification_spec.
  unfold block_value_error.
  destruct (block_try_well_formed false ip Hip Hc Ht) as [r ->].
  now rewrite orb_false_r.
Qed.

(** What [_get_container_name] gives, read off the engine's report. *)
Lemma _get_container_name_spec (container_id : string) (w : World) :
  _get_container_name config container_id w =
  match engine_report config container_id with
  | Some (Reported n) => (Ok (Some n), w)
  | Some CommandFailed => (Ok None, w)
  | Some LaunchFailed => (Exc OSError, w)
  | None => (Ok None, w)
  end.
Proof.
  unfold _get_container_name, engine_report.
  destruct (String.eqb _ "docker");
    [destruct (inspect_name "docker" container_id); reflexivity|].
  destruct (String.eqb _ "podman");
    [destruct (inspect_name "podman" container_id); reflexivity|].
  reflexivity.
Qed.

(** The constructor of IsolateContainerAction draws its uuid first and asks
    the engine afterwards: it raises when the engine cannot be started and
    otherwise returns the action with its decision. *)
Lemma IsolateContainerAction_spec (event : SecurityEvent)
    (container_id : string) (w : World) :
  IsolateContainerAction config event container_id w =
  if launch_fails config container_id then (Exc OSError, add_uuids 1 w)
  else
    (Ok {| id := uuid4 (uuids w); name := "IsolateContainerAction";
           status := Pending;
           requires_verification :=
             (severity event <=? auto_isolate_score (container config))
             || container_protected config container_id;
           verification_status := VPending;
           result := None; start_time := None; end_time := None;
           error := None; params := IsolateContainer container_id |},
     add_uuids 1 w).
Proof.
  unfold IsolateContainerAction, ResponseAction_init, bind at 1, bind at 1,
    new_uuid, ret at 1.
  cbv zeta. unfold bind. rewrite _get_container_name_spec.
  unfold launch_fails, container_protected, critical_container.
  destruct (engine_report config container_id) as [[n| |]|]; simpl;
    try reflexivity;
    unfold ret, set_requires_verification; simpl;
    destruct (severity event <=? _); simpl;
    try destruct (negb (n =? "")%string && existsb _ _); reflexivity.
Qed.

(** C1 (amended). For every action built from an event of severity [s]:
    RotateCredentialsAction and ExecutePlaybookAction require verification
    exactly when [s <= t] for their threshold; IsolateContainerAction
    exactly when [s <= t] or the container is on the critical list;
    BlockIPAction exactly when [s <= t], or the address is a critical host
    or in a trusted range, or parsing the address or a list entry raised
    ValueError. In every case [s <= t] alone already forces verification:
    the overrides only ever turn the flag on. An IsolateContainerAction is
    built unless starting the container engine fails; then its constructor
    raises and there is no action to decide about. *)
Theorem verification_gate (event : SecurityEvent) (w : World) :
  let s := severity event in
  (forall ip duration,
     builds (BlockIPAction config event ip duration) w (fun a =>
       requires_verification a =
         (s <=? max_auto_block_score (network config))
         || ip_protected config ip || block_value_error config ip
       /\ implb (s <=? max_auto_block_score (network config))
                (requires_verification a) = true)) /\
  (forall container_id,
     if launch_fails config container_id
     then exists w',
       IsolateContainerAction config event container_id w = (Exc OSError, w')
     else
     builds (IsolateContainerAction config event container_id) w (fun a =>
       requires_verification a =
         (s <=? auto_isolate_score (container config))
         || container_protected config container_id
       /\ implb (s <=? auto_isolate_score (container config))
                (requires_verification a) = true)) /\
  (forall credential_type identifier metadata,
     builds (RotateCredentialsAction config event credential_type
               identifier metadata) w (fun a =>
       requires_verification a =
         (s <=? auto_rotate_score (credentials config)))) /\
  (forall playbook_name parameters,
     builds (ExecutePlaybookAction config event playbook_name parameters) w
       (fun a =>
         requires_verification a =
           (s <=? auto_execute_score (playbooks config)))).
Proof.
  cbv zeta. repeat split.
  - intros ip duration. eexists _, _. split; [reflexivity|]. simpl.
    rewrite block_requires_verification_spec.
    split; [reflexivity|].
    now destruct (severity event <=? _).
  - intros container_id. unfold builds.
    rewrite IsolateContainerAction_spec.
    destruct (launch_fails config container_id); [eauto|].
    eexists _, _. split; [reflexivity|]. simpl.
    split; [reflexivity|].
    now destruct (severity event <=? _).
  - intros ? ? ?. eexists _, _. split; reflexivity.
  - intros ? ?. eexists _, _. split; reflexivity.
Qed.

(** C10. A BlockIPAction whose [ip_address] does not parse requires
    verification, whatever the severity and [max_auto_block_score]. *)
Theorem unparseable_ip_requires_verification
    (event : SecurityEvent) (ip : string) (duration : option Z) (w : World) :
  ip_address ip = None ->
  builds (BlockIPAction config event ip duration) w (fun a =>
    requires_verification a = true).
Proof.
  intros Hparse. eexists _, _. split; [reflexivity|]. simpl.
  unfold block_requires_verification, block_try. now rewrite Hparse.
Qed.

End Policy.

Lemma unparseable_ip_requires_verification_witness :
  @ip_address IPv4.lib "placeholder" = None /\
  builds (@BlockIPAction IPv4.lib Demo.env DEFAULT_CONFIG
            (Demo.event "suspicious_ip" Demo.ip_event_details 100)
            "placeholder" None) empty_world
    (fun a => requires_verification a = true).
Proof.
  split; [reflexivity|].
  apply (@unparseable_ip_requires_verification IPv4.lib Demo.env).
  reflexivity.
Defined.

(** C1 as stated fails: with the default thresholds, severity 80 and the
    target [203.0.113.999] (not an address, on no protected list), the
    comparison [80 <= 70] is false and yet the flag is set. *)
Lemma gate_unparseable_target_counterexample :
  let event := Demo.event "suspicious_ip" Demo.ip_event_details 80 in
  builds (@BlockIPAction IPv4.lib Demo.env DEFAULT_CONFIG event
            "203.0.113.999" None) empty_world
    (fun a =>
       @ip_protected IPv4.lib DEFAULT_CONFIG "203.0.113.999" = false /\
       requires_verification a <>
         ((severity event <=? max_auto_block_score (network DEFAULT_CONFIG))
          || @ip_protected IPv4.lib DEFAULT_CONFIG "203.0.113.999")).
Proof.
  eexists _, _. split; [reflexivity|]. split; [reflexivity|].
  vm_compute. discriminate.
Qed.

(** ** Execution *)

Section Execution.

Context {IP : IpAddressLib} {X : Externals}.
Variable config : Config.

Lemma impl_outcome_set_status st t a h :
  impl_outcome config (set_status st (set_start_time t a)) h =
  impl_outcome config a h.
Proof. reflexivity. Qed.

(** What one call of [execute] does to the object and to the world. *)
Lemma execute_spec (a : ResponseAction) (w : World) :
  exists b a' w',
    execute config a w = (Ok (b, a'), w') /\
    (id a' = id a /\ name a' = name a /\ params a' = params a /\
     requires_verification a' = requires_verification a /\
     verification_status a' = verification_status a) /\
    (events_dir w' = events_dir w /\ actions_dir w' = actions_dir w /\
     outbox w' = outbox w /\ writes w' = writes w /\ uuids w' = uuids w) /\
    (if dry_run (general config)
     then impl_calls w' = impl_calls w /\ b = true /\
          status a' = Completed /\
          result a' = Some "Skipped (dry run mode)"
     else impl_calls w' = (impl_calls w ++ [call_of a])%list /\
          match impl_outcome config a (impl_calls w) with
          | Returned text =>
              b = true /\ status a' = Completed /\ result a' = Some text
          | Raised message =>
              b = false /\ status a' = Failed /\ error a' = Some message
          end).
Proof.
  unfold execute, execute_begin, execute_try, bind, now, ret, _execute_impl.
  destruct (dry_run (general config)); simpl.
  - eexists _, _, _. split; [reflexivity|]. simpl. tauto.
  - rewrite impl_outcome_set_status.
    destruct (impl_outcome config a (impl_calls w)); simpl;
      (eexists _, _, _; split; [reflexivity|]; simpl; tauto).
Qed.

Lemma execute_terminal (a : ResponseAction) (w : World) b a' w' :
  execute config a w = (Ok (b, a'), w') ->
  status a' = Completed \/ status a' = Failed.
Proof.
  destruct (execute_spec a w) as (b0 & a0 & w0 & E & _ & _ & H).
  rewrite E. intros [= <- <- <-].
  destruct (dry_run (general config)).
  - tauto.
  - destruct H as [_ H]. destruct (impl_outcome _ _ _); tauto.
Qed.

(** [_execute_action] never raises: after [execute] it saves the action,
    appends to the event's log and saves the event, and a failed write
    only turns the answer into [False]. *)
Lemma _execute_action_spec (a : ResponseAction) (event : SecurityEvent)
    (w : World) b a' w1 :
  execute config a w = (Ok (b, a'), w1) ->
  let event' := append_response_action (executed_entry a') event in
  let w2 := snd (_save_action a' event w1) in
  let w3 := snd (_save_event event' w2) in
  _execute_action config a event w =
    if write_ok (writes w1) then
      if write_ok (writes w2) then
        (Ok (b, a', event'),
         snd (notify (ActionNotice (id a') (status a')) w3))
      else (Ok (false, a', event'), w3)
    else (Ok (false, a', event), w2).
Proof.
  intros E. cbv zeta.
  unfold _execute_action, try_except, bind. rewrite E. simpl.
  unfold _save_action.
  destruct (write_ok (writes w1)); simpl; [|reflexivity].
  unfold _save_event. simpl.
  destruct (write_ok (S (writes w1))); reflexivity.
Qed.

(** The same, as the facts the orchestration proofs use. *)
Lemma _execute_action_facts (a : ResponseAction) (event : SecurityEvent)
    (w : World) :
  exists b a' event' w',
    _execute_action config a event w = (Ok (b, a', event'), w') /\
    (id a' = id a /\ name a' = name a /\ params a' = params a /\
     requires_verification a' = requires_verification a) /\
    (status a' = Completed \/ status a' = Failed) /\
    (event' = event \/
     event' = append_response_action (executed_entry a') event) /\
    (actions_dir w' = actions_dir w \/
     actions_dir w' =
       <[id a := {| action := action_to_dict a'; event_id := ev_id event |}]>
         (actions_dir w)) /\
    (events_dir w' = events_dir w \/
     events_dir w' = <[ev_id event := event_to_dict event']> (events_dir w)) /\
    impl_calls w' =
      (impl_calls w ++
       if dry_run (general config) then [] else [call_of a])%list.
Proof.
  destruct (execute_spec a w)
    as (b & a' & w1 & E & (Hid & Hn & Hp & Hrv & _) & Hw & Hc).
  destruct Hw as (He & Ha & _ & _ & _).
  assert (Hterm := execute_terminal _ _ _ _ _ E).
  assert (Hcalls : impl_calls w1 =
            (impl_calls w ++
             if dry_run (general config) then [] else [call_of a])%list).
  { destruct (dry_run (general config)).
    - rewrite app_nil_r. tauto.
    - tauto. }
  rewrite (_execute_action_spec _ _ _ _ _ _ E). cbv zeta.
  unfold _save_action, _save_event, notify.
  destruct (write_ok (writes w1)); simpl.
  - destruct (write_ok (S (writes w1))); simpl;
      eexists _, _, _, _; (split; [reflexivity|]); simpl;
      rewrite Hid, He, Ha; tauto.
  - eexists _, _, _, _. split; [reflexivity|]. simpl. tauto.
Qed.

End Execution.

(** ** Deriving the actions *)

Section Deriving.

Context {IP : IpAddressLib} {X : Externals}.
Variable config : Config.

Lemma add_uuids_0 w : add_uuids 0 w = w.
Proof. now destruct w. Qed.

Lemma add_uuids_add k1 k2 w :
  add_uuids k2 (add_uuids k1 w) = add_uuids (k1 + k2) w.
Proof. unfold add_uuids. simpl. f_equal. lia. Qed.

Lemma allocates_ret {A} (a : A) : allocates (ret a).
Proof. intros w. exists a, 0%nat. now rewrite add_uuids_0. Qed.

Lemma allocates_bind {A B} (c : M A) (k : A -> M B) :
  allocates c -> (forall a, allocates (k a)) -> allocates (bind c k).
Proof.
  intros Hc Hk w. destruct (Hc w) as (a & n1 & E1).
  destruct (Hk a (add_uuids n1 w)) as (b & n2 & E2).
  exists b, (n1 + n2)%nat. unfold bind. rewrite E1, E2.
  now rewrite add_uuids_add.
Qed.

Lemma allocates_new_uuid : allocates new_uuid.
Proof. intros w. exists (uuid4 (uuids w)), 1%nat. reflexivity. Qed.

Lemma allocates_init p : allocates (ResponseAction_init p).
Proof.
  apply allocates_bind; [apply allocates_new_uuid|].
  intros; apply allocates_ret.
Qed.

Ltac alloc :=
  repeat first
    [ apply allocates_ret
    | apply allocates_init
    | apply allocates_bind; [|intros ?]
    | match goal with
      | |- allocates (match ?x with _ => _ end) => destruct x
      | |- allocates (if ?x then _ else _) => destruct x
      end ].

Lemma allocates_BlockIPAction event ip duration :
  allocates (BlockIPAction config event ip duration).
Proof. unfold BlockIPAction. alloc. Qed.

Lemma allocates_IsolateContainerAction event container_id :
  launch_fails config container_id = false ->
  allocates (IsolateContainerAction config event container_id).
Proof.
  intros H w. rewrite IsolateContainerAction_spec, H. eauto.
Qed.

Lemma allocates_RotateCredentialsAction event ct i m :
  allocates (RotateCredentialsAction config event ct i m).
Proof. unfold RotateCredentialsAction. alloc. Qed.

Lemma allocates_ForensicCaptureAction event target types :
  allocates (ForensicCaptureAction event target types).
Proof. unfold ForensicCaptureAction. alloc. Qed.

Lemma allocates_ExecutePlaybookAction event nm ps :
  allocates (ExecutePlaybookAction config event nm ps).
Proof. unfold ExecutePlaybookAction. alloc. Qed.

Ltac alloc_actions :=
  repeat first
    [ apply allocates_ret
    | apply allocates_BlockIPAction
    | apply allocates_RotateCredentialsAction
    | apply allocates_ForensicCaptureAction
    | apply allocates_ExecutePlaybookAction
    | apply allocates_bind; [|intros ?]
    | match goal with
      | |- allocates (match ?x with _ => _ end) => destruct x
      | |- allocates (if ?x then _ else _) => destruct x
      end ].

Lemma allocates_actions_for_type event :
  event_launch_fails config event = false ->
  allocates (actions_for_type config event).
Proof.
  unfold event_launch_fails, actions_for_type. intros H.
  destruct (String.eqb (event_type event) "suspicious_ip");
    [alloc_actions|].
  destruct (String.eqb (event_type event) "compromised_container").
  - simpl in H.
    destruct (truthy (details event !! "container_id")) as [c|];
      [|apply allocates_ret].
    apply allocates_bind; [now apply allocates_IsolateContainerAction|].
    intros a. alloc_actions.
  - alloc_actions.
Qed.

Lemma allocates_suggested_playbook_action event :
  allocates (suggested_playbook_action config event).
Proof. unfold suggested_playbook_action. alloc_actions. Qed.

(** Unless the engine cannot be started, deriving the actions returns and
    touches nothing but the uuid supply. *)
Lemma allocates_determine event :
  event_launch_fails config event = false ->
  allocates (_determine_response_actions config event).
Proof.
  intros H. unfold _determine_response_actions.
  apply allocates_bind; [now apply allocates_actions_for_type|intros l1].
  apply allocates_bind; [apply allocates_suggested_playbook_action|intros l2].
  apply allocates_ret.
Qed.

(** When it cannot, the constructor of the isolation raises, one uuid
    drawn, and nothing is derived. *)
Lemma determine_launch_fails event w :
  event_launch_fails config event = true ->
  _determine_response_actions config event w = (Exc OSError, add_uuids 1 w).
Proof.
  unfold event_launch_fails. intros H.
  apply andb_prop in H as [Hty Hc].
  apply String.eqb_eq in Hty.
  destruct (truthy (details event !! "container_id")) as [c|] eqn:Hid;
    [|discriminate].
  unfold _determine_response_actions, bind at 1, actions_for_type.
  rewrite Hty. simpl. rewrite Hid.
  unfold bind at 1. rewrite IsolateContainerAction_spec, Hc. reflexivity.
Qed.

(** Either way the derivation only draws uuids. *)
Lemma draws_determine event :
  draws (_determine_response_actions config event).
Proof.
  intros w. destruct (event_launch_fails config event) eqn:H.
  - rewrite (determine_launch_fails _ _ H). eauto.
  - destruct (allocates_determine event H w) as (l & k & ->). eauto.
Qed.

End Deriving.

(** ** Handling an event *)

Section Orchestration.

Context {IP : IpAddressLib} {X : Externals}.
Variable config : Config.

Lemma no_auto_pending_same_actions w w' :
  actions_dir w' = actions_dir w -> no_auto_pending w -> no_auto_pending w'.
Proof. intros E H i f. rewrite E. apply H. Qed.

Lemma no_auto_pending_insert w w' (a : ResponseAction) ev :
  actions_dir w' =
    <[id a := {| action := action_to_dict a; event_id := ev |}]>
      (actions_dir w) ->
  (requires_verification a = false -> status a <> Pending) ->
  no_auto_pending w -> no_auto_pending w'.
Proof.
  intros E Ha H i f. rewrite E.
  destruct (decide (id a = i)) as [->|Hne].
  - rewrite lookup_insert_eq. intros [= <-]. simpl. exact Ha.
  - rewrite lookup_insert_ne by exact Hne. apply H.
Qed.

Lemma handle_one_no_auto_pending a event w :
  no_auto_pending w -> no_auto_pending (snd (handle_one config a event w)).
Proof.
  intros H. unfold handle_one.
  destruct (requires_verification a) eqn:Hrv; simpl.
  - unfold bind, _save_action.
    destruct (write_ok (writes w)); simpl.
    + eapply no_auto_pending_insert; [reflexivity| |exact H]. congruence.
    + eapply no_auto_pending_same_actions; [reflexivity|exact H].
  - destruct (_execute_action_facts config a event w)
      as (b & a' & e' & w' & E & (Hid & _) & Hterm & _ & Hact & _).
    unfold bind. rewrite E. simpl.
    destruct Hact as [Hact|Hact].
    + now apply (no_auto_pending_same_actions w).
    + rewrite <- Hid in Hact.
      eapply no_auto_pending_insert; [exact Hact| |exact H].
      intros _. destruct Hterm as [-> | ->]; discriminate.
Qed.

Lemma handle_loop_no_auto_pending actions event w :
  no_auto_pending w ->
  no_auto_pending (snd (handle_loop config actions event w)).
Proof.
  revert event w. induction actions as [|a rest IH]; intros event w H.
  - exact H.
  - simpl. unfold bind at 1.
    pose proof (handle_one_no_auto_pending a event w H) as H1.
    destruct (handle_one config a event w) as [[[a' e']|x] w1]; simpl in *.
    + unfold bind. specialize (IH e' w1 H1).
      destruct (handle_loop config rest e' w1) as [[r|x] w2]; exact IH.
    + exact H1.
Qed.


(** [handle_security_event], step by step. *)
Lemma handle_security_event_unfold event w :
  handle_security_event config event w =
  if write_ok (writes w) then
    match _determine_response_actions config event
            (snd (notify (EventNotice (ev_id event))
                    (snd (_save_event event w)))) with
    | (Ok actions, w0) =>
        match handle_loop config actions event w0 with
        | (Ok _, w') => (Ok (ev_id event), w')
        | (Exc x, w') => (Exc x, w')
        end
    | (Exc x, w0) => (Exc x, w0)
    end
  else (Exc OSError, snd (_save_event event w)).
Proof.
  unfold handle_security_event, bind at 1, _save_event.
  destruct (write_ok (writes w)); simpl; [|reflexivity].
  unfold bind at 1. simpl. unfold bind at 1.
  match goal with
  | |- context [_determine_response_actions config event ?w0] =>
      destruct (_determine_response_actions config event w0)
        as [[actions|x] w1]; [|reflexivity]
  end.
  unfold bind.
  destruct (handle_loop config actions event w1) as [[r|x] w2]; reflexivity.
Qed.

Lemma handle_one_ok a event w :
  (forall n, write_ok n = true) ->
  exists r w', handle_one config a event w = (Ok r, w').
Proof.
  intros Hw. unfold handle_one.
  destruct (requires_verification a); simpl.
  - unfold bind, _save_action. rewrite Hw. simpl. eauto.
  - destruct (_execute_action_facts config a event w)
      as (b & a' & e' & w' & E & _).
    unfold bind. rewrite E. simpl. eauto.
Qed.

Lemma handle_loop_ok actions event w :
  (forall n, write_ok n = true) ->
  exists r w', handle_loop config actions event w = (Ok r, w').
Proof.
  intros Hw. revert event w.
  induction actions as [|a rest IH]; intros event w; simpl.
  - unfold ret. eauto.
  - destruct (handle_one_ok a event w Hw) as ([a' e'] & w1 & E).
    destruct (IH e' w1) as ([l e] & w2 & E').
    unfold bind at 1. rewrite E. simpl. unfold bind. rewrite E'. simpl. eauto.
Qed.

(** With a working disk and an engine that starts,
    [handle_security_event] returns the event id. *)
Lemma handle_security_event_ok event w :
  (forall n, write_ok n = true) ->
  event_launch_fails config event = false ->
  exists w', handle_security_event config event w = (Ok (ev_id event), w').
Proof.
  intros Hw Hengine. rewrite handle_security_event_unfold, Hw.
  match goal with
  | |- context [_determine_response_actions config event ?w0] =>
      destruct (allocates_determine config event Hengine w0) as (l & k & ->)
  end.
  match goal with
  | |- context [handle_loop config l event ?w0] =>
      destruct (handle_loop_ok l event w0 Hw) as (r & w2 & ->)
  end.
  eauto.
Qed.

(** How the loop body leaves an action when it returns. *)
Lemma handle_one_returned a event w a' event' w' :
  handle_one config a event w = (Ok (a', event'), w') ->
  processed a a' /\
  impl_calls w' =
    (impl_calls w ++
     if dry_run (general config) then []
     else map call_of (List.filter auto [a]))%list.
Proof.
  unfold handle_one, auto, processed.
  destruct (requires_verification a) eqn:Hrv; simpl.
  - unfold bind, _save_action, notify.
    destruct (write_ok (writes w)); simpl; [|discriminate].
    intros [= <- <- <-]. simpl. rewrite Hrv. simpl.
    assert (Hnil : (impl_calls w ++
                    if dry_run (general config) then [] else [])%list
                   = impl_calls w)
      by (destruct (dry_run (general config)); apply app_nil_r).
    rewrite Hnil.
    repeat split; try reflexivity; try assumption; discriminate.
  - destruct (_execute_action_facts config a event w)
      as (b & a1 & e1 & w1 & E & Hsame & Hterm & _ & _ & _ & Hcalls).
    unfold bind. rewrite E. simpl. intros [= <- <- <-].
    split; [|rewrite Hrv; exact Hcalls].
    rewrite Hrv in Hsame.
    split; [exact Hsame|]. split; [discriminate|]. intros _. exact Hterm.
Qed.

(** And the whole loop: the actions that need no verification have been
    executed, once each and in order, the others are untouched. *)
Lemma handle_loop_returned actions event w l' event' w' :
  handle_loop config actions event w = (Ok (l', event'), w') ->
  Forall2 processed actions l' /\
  impl_calls w' =
    (impl_calls w ++
     if dry_run (general config) then []
     else map call_of (List.filter auto actions))%list.
Proof.
  revert event w l' event' w'.
  induction actions as [|a rest IH]; intros event w l' event' w'.
  - simpl. unfold ret. intros [= <- <- <-]. split; [constructor|].
    destruct (dry_run (general config)); now rewrite app_nil_r.
  - simpl. unfold bind at 1.
    destruct (handle_one config a event w) as [[[a1 e1]|x] w1] eqn:E1;
      [|discriminate].
    simpl. unfold bind.
    destruct (handle_loop config rest e1 w1) as [[[l2 e2]|x] w2] eqn:E2;
      [|discriminate].
    simpl. intros [= <- <- <-].
    destruct (handle_one_returned _ _ _ _ _ _ E1) as [Hp Hc1].
    destruct (IH _ _ _ _ _ E2) as [Hall Hc2].
    split; [constructor; assumption|].
    rewrite Hc2, Hc1. simpl.
    destruct (dry_run (general config)); [now rewrite !app_nil_r|].
    destruct (auto a); simpl; now rewrite <- app_assoc.
Qed.

(** C6. Handling an event keeps the store free of pending records for
    actions that need no verification, whether the call returns or
    raises. When it returns, the loop has run over the very actions
    derived for the event: each one that needs no verification has been
    executed during the call, its implementation called once and in order
    (unless in dry-run mode), and has left the loop completed or failed,
    while the others are untouched. With a working disk and an engine that
    starts the call does return. *)
Theorem auto_actions_never_stored_pending (event : SecurityEvent) (w : World) :
  no_auto_pending w ->
  let r := handle_security_event config event w in
  no_auto_pending (snd r) /\
  (forall i, fst r = Ok i ->
     exists actions w0 l' event',
       _determine_response_actions config event
         (snd (notify (EventNotice (ev_id event))
                 (snd (_save_event event w)))) = (Ok actions, w0) /\
       handle_loop config actions event w0 = (Ok (l', event'), snd r) /\
       Forall2 processed actions l' /\
       Forall (fun a' => requires_verification a' = false ->
                         status a' = Completed \/ status a' = Failed) l' /\
       impl_calls (snd r) =
         (impl_calls w ++
          if dry_run (general config) then []
          else map call_of (List.filter auto actions))%list) /\
  ((forall n, write_ok n = true) ->
   event_launch_fails config event = false ->
   fst r = Ok (ev_id event)).
Proof.
  intros H. cbv zeta. split; [|split].
  - rewrite handle_security_event_unfold. unfold _save_event, notify.
    destruct (write_ok (writes w)); simpl.
    + match goal with
      | |- context [_determine_response_actions config event ?w0] =>
          destruct (draws_determine config event w0) as ([l|x] & k & ->);
          assert (H0 : no_auto_pending (add_uuids k w0))
            by (eapply no_auto_pending_same_actions; [reflexivity|exact H])
      end.
      * pose proof (handle_loop_no_auto_pending l event _ H0) as H1.
        destruct (handle_loop config l event _) as [[r|x] w2]; exact H1.
      * exact H0.
    + eapply no_auto_pending_same_actions; [reflexivity|exact H].
  - intros i. rewrite handle_security_event_unfold.
    unfold _save_event, notify.
    destruct (write_ok (writes w)); [|discriminate]. simpl.
    match goal with
    | |- context [_determine_response_actions config event ?w0] =>
        destruct (draws_determine config event w0) as ([actions|x] & k & ->);
          [|discriminate];
        set (w1 := add_uuids k w0)
    end.
    destruct (handle_loop config actions event w1) as [[[l' e']|x] w2] eqn:E2;
      [|discriminate].
    simpl. intros _.
    destruct (handle_loop_returned _ _ _ _ _ _ E2) as [Hall Hcalls].
    exists actions, w1, l', e'. split; [reflexivity|]. split; [exact E2|].
    split; [exact Hall|]. split.
    + clear E2 Hcalls. induction Hall as [|a a' rest l2 Hp _ IH];
        constructor; [|exact IH].
      destruct Hp as ((_ & _ & _ & Hrv) & _ & Hterm).
      intros Ha'. apply Hterm. congruence.
    + rewrite Hcalls. reflexivity.
  - intros Hw Hengine.
    destruct (handle_security_event_ok event w Hw Hengine) as (w' & ->).
    reflexivity.
Qed.

Lemma handle_loop_cons a rest event w a' event' w' :
  handle_one config a event w = (Ok (a', event'), w') ->
  handle_loop config (a :: rest) event w =
    match handle_loop config rest event' w' with
    | (Ok (l, e), w'') => (Ok (a' :: l, e), w'')
    | (Exc x, w'') => (Exc x, w'')
    end.
Proof.
  intros E. simpl. unfold bind at 1. rewrite E. simpl. unfold bind.
  destruct (handle_loop config rest event' w') as [[[l e]|x] w'']; reflexivity.
Qed.



End Orchestration.

(** ** Dry-run mode *)

Section DryRun.

Context {IP : IpAddressLib} {X : Externals}.
Variable config : Config.




End DryRun.

(** ** Submitting an event *)

Section Submission.

Context {IP : IpAddressLib} {X : Externals}.
Variable config : Config.

Lemma handle_one_severity_filed a event w :
  severity_filed (ev_id event) (severity event) w ->
  exists event',
    (forall r w', handle_one config a event w = (Ok r, w') -> snd r = event') /\
    ev_id event' = ev_id event /\ severity event' = severity event /\
    severity_filed (ev_id event) (severity event)
      (snd (handle_one config a event w)).
Proof.
  intros H. unfold handle_one.
  destruct (requires_verification a); simpl.
  - exists event. unfold bind, _save_action.
    destruct (write_ok (writes w)); simpl.
    + split; [now intros r w'' [= <- <-]|]. tauto.
    + split; [discriminate|]. tauto.
  - destruct (_execute_action_facts config a event w)
      as (b & a' & e' & w' & E & _ & _ & He & _ & Hev & _).
    unfold bind. rewrite E. simpl. exists e'.
    assert (ev_id e' = ev_id event /\ severity e' = severity event)
      as [Hi Hs] by (destruct He as [-> | ->]; split; reflexivity).
    split; [now intros r w'' [= <- <-]|]. split; [exact Hi|].
    split; [exact Hs|].
    destruct Hev as [Hev|Hev]; unfold severity_filed; rewrite Hev.
    + exact H.
    + rewrite lookup_insert_eq. eexists. split; [reflexivity|].
      simpl. now rewrite Hi, Hs.
Qed.

Lemma handle_loop_severity_filed actions event w :
  severity_filed (ev_id event) (severity event) w ->
  severity_filed (ev_id event) (severity event)
    (snd (handle_loop config actions event w)).
Proof.
  revert event w. induction actions as [|a rest IH]; intros event w H.
  - exact H.
  - destruct (handle_one_severity_filed a event w H)
      as (e' & Hret & Hi & Hs & H1).
    simpl. unfold bind at 1.
    destruct (handle_one config a event w) as [[r|x] w1] eqn:E; simpl in *.
    + rewrite (Hret r w1 eq_refl). unfold bind.
      rewrite <- Hi, <- Hs in H1. specialize (IH e' w1 H1).
      rewrite Hi, Hs in IH.
      destruct (handle_loop config rest e' w1) as [[r'|x] w2]; exact IH.
    + exact H1.
Qed.

(** Once the first write succeeds, the event file of a submission holds
    the supplied severity for the rest of the call. *)
Lemma submit_severity_filed
    (ty src : string) (evidence : gmap string string) (sev : Z) (w : World) :
  write_ok (writes w) = true ->
  severity_filed (uuid4 (uuids w)) sev
    (snd (submit config ty src evidence sev w)).
Proof.
  intros Hw.
  unfold submit, SecurityEvent_init, bind at 1, bind at 1, new_uuid. simpl.
  unfold handle_security_event, bind at 1, _save_event. simpl.
  rewrite Hw. simpl. unfold bind at 1. simpl. unfold bind at 1.
  match goal with
  | |- context [_determine_response_actions config ?e ?w0] =>
      assert (HP : severity_filed (ev_id e) (severity e) w0)
        by (unfold severity_filed; simpl; eexists;
            rewrite lookup_insert_eq; split; [reflexivity|]; now simpl);
      destruct (draws_determine config e w0) as ([l|x] & k & ->);
        [pose proof (handle_loop_severity_filed l e (add_uuids k w0) HP)
           as H
        |exact HP]
  end.
  simpl in H. unfold bind at 1.
  match goal with
  | |- context [handle_loop config l ?e ?w0] =>
      destruct (handle_loop config l e w0) as [[r|x] w2]; exact H
  end.
Qed.

(** C3 (amended). The severity on the created event is the severity the
    caller supplied, unchanged: once the first write of the event file
    succeeds, that file holds the supplied value until the call ends,
    whether it returns or raises. No clamping or validation takes place,
    so the stored value lies in [0,100] exactly when the supplied one
    does. *)
Theorem stored_severity_is_supplied
    (ty src : string) (evidence : gmap string string) (sev : Z) (w : World) :
  write_ok (writes w) = true ->
  exists d,
    events_dir (snd (submit config ty src evidence sev w)) !! uuid4 (uuids w)
      = Some d /\
    d_id d = uuid4 (uuids w) /\
    d_severity d = sev /\
    (0 <= d_severity d <= 100 <-> 0 <= sev <= 100).
Proof.
  intros Hw.
  destruct (submit_severity_filed ty src evidence sev w Hw)
    as (d & E & Hi & Hs).
  exists d. rewrite Hs. tauto.
Qed.




End Submission.

(** ** Verifying an action *)

Section Verification.

Context {IP : IpAddressLib} {X : Externals}.
Variable config : Config.

(** Reloading an event: [from_dict] undoes [to_dict]. It builds the object
    through the constructor, which draws a uuid and reads the clock. *)
Lemma event_from_dict_spec (data : EventDict) (w : World) :
  exists event w',
    event_from_dict data w = (Ok event, w') /\
    event_to_dict event = data /\
    (events_dir w' = events_dir w /\ actions_dir w' = actions_dir w /\
     outbox w' = outbox w /\ impl_calls w' = impl_calls w /\
     writes w' = writes w).
Proof.
  eexists _, _. split; [reflexivity|]. simpl. split; [|tauto].
  destruct data as [? ? ? ? ? ? ? ? ? ? [t|]]; reflexivity.
Qed.

Lemma event_round_trip (event : SecurityEvent) (w : World) :
  exists w', event_from_dict (event_to_dict event) w = (Ok event, w').
Proof.
  eexists. unfold event_from_dict, SecurityEvent_init, bind, new_uuid, now, ret.
  simpl. destruct event as [? ? ? ? ? ? ? ? ? ? [t|]]; reflexivity.
Qed.

(** Persisting an event and reloading it by id gives the event back. *)
Lemma event_persist_reload (event : SecurityEvent) (w : World) :
  write_ok (writes w) = true ->
  exists w1 w2 w3 data,
    _save_event event w = (Ok tt, w1) /\
    read_event (ev_id event) w1 = (Ok (Some data), w2) /\
    event_from_dict data w2 = (Ok event, w3).
Proof.
  intros Hw. unfold _save_event, read_event. rewrite Hw. simpl.
  destruct (event_round_trip event
    {| events_dir := <[ev_id event := event_to_dict event]> (events_dir w);
       actions_dir := actions_dir w; outbox := outbox w;
       impl_calls := impl_calls w; clock := clock w; uuids := uuids w;
       writes := S (writes w) |}) as (w3 & E).
  eexists _, _, w3, _. split; [reflexivity|]. simpl.
  rewrite lookup_insert_eq. split; [reflexivity|exact E].
Qed.

(** The action file keeps the nine base attributes and nothing of the
    subclass: actions that differ only in [params] are written alike. *)
Lemma action_file_forgets_params (a b : ResponseAction) :
  id a = id b -> name a = name b -> status a = status b ->
  requires_verification a = requires_verification b ->
  verification_status a = verification_status b ->
  result a = result b -> start_time a = start_time b ->
  end_time a = end_time b -> error a = error b ->
  action_to_dict a = action_to_dict b.
Proof. unfold action_to_dict. intros. congruence. Qed.

Lemma reconstruct_one_argument (action_type : string) (event : SecurityEvent) :
  In action_type one_argument_classes ->
  reload_launch_fails config action_type = false ->
  exists c,
    reconstruct config action_type event = Some c /\
    forall w, exists a k,
      c w = (Ok a, add_uuids k w) /\ name a = action_type.
Proof.
  simpl. intros [<-|[<-|[<-|[<-|[]]]]] Hengine;
    eexists; (split; [reflexivity|]); intros w.
  2: { rewrite IsolateContainerAction_spec.
       unfold reload_launch_fails in Hengine. simpl in Hengine.
       rewrite Hengine. eexists _, 1%nat. split; reflexivity. }
  all: eexists _, 1%nat; split; reflexivity.
Qed.

(** When the engine cannot be started, rebuilding a stored isolation
    raises, one uuid drawn. *)
Lemma reconstruct_launch_fails (action_type : string) (event : SecurityEvent) :
  reload_launch_fails config action_type = true ->
  exists c,
    reconstruct config action_type event = Some c /\
    forall w, c w = (Exc OSError, add_uuids 1 w).
Proof.
  unfold reload_launch_fails. intros H.
  apply andb_prop in H as [Hty Hc]. apply String.eqb_eq in Hty. subst.
  eexists. split; [reflexivity|]. intros w.
  now rewrite IsolateContainerAction_spec, Hc.
Qed.

(** [_execute_action] when the action file can be written. *)
Lemma _execute_action_stored (a : ResponseAction) (event : SecurityEvent)
    (w : World) :
  write_ok (writes w) = true ->
  exists b a' event' w',
    _execute_action config a event w = (Ok (b, a', event'), w') /\
    (id a' = id a /\ verification_status a' = verification_status a) /\
    (status a' = Completed \/ status a' = Failed) /\
    actions_dir w' =
      <[id a := {| action := action_to_dict a'; event_id := ev_id event |}]>
        (actions_dir w) /\
    impl_calls w' =
      (impl_calls w ++
       if dry_run (general config) then [] else [call_of a])%list.
Proof.
  intros Hw.
  destruct (execute_spec config a w)
    as (b & a' & w1 & E & (Hid & _ & _ & _ & Hvs) & Hworld & Hc).
  destruct Hworld as (_ & Ha & _ & Hwr & _).
  assert (Hterm := execute_terminal _ _ _ _ _ _ E).
  assert (Hcalls : impl_calls w1 =
            (impl_calls w ++
             if dry_run (general config) then [] else [call_of a])%list).
  { destruct (dry_run (general config)).
    - rewrite app_nil_r. tauto.
    - tauto. }
  rewrite (_execute_action_spec config _ _ _ _ _ _ E). cbv zeta.
  unfold _save_action, _save_event, notify. rewrite Hwr, Hw. simpl.
  destruct (write_ok (S (writes w))); simpl;
    eexists _, _, _, _; (split; [reflexivity|]); simpl;
    rewrite Hid, Ha; tauto.
Qed.

(** When the engine cannot be started, verifying a stored isolation
    raises in the constructor call and the store is left as it was. *)
Lemma verify_action_launch_fails
    (action_id user : string) (approve : bool) (w : World)
    (data : ActionFile) (event_data : EventDict) :
  actions_dir w !! action_id = Some data ->
  events_dir w !! event_id data = Some event_data ->
  reload_launch_fails config (a_name (action data)) = true ->
  exists w',
    verify_action config action_id approve user w = (Exc OSError, w') /\
    actions_dir w' = actions_dir w /\ events_dir w' = events_dir w /\
    outbox w' = outbox w /\ impl_calls w' = impl_calls w.
Proof.
  intros Hact Hev Hengine.
  unfold verify_action, bind at 1, read_action. rewrite Hact.
  unfold bind at 1, read_event. rewrite Hev.
  destruct (event_from_dict_spec event_data w)
    as (event & w1 & E1 & _ & (He & Ha & Ho & Hc & _)).
  unfold bind at 1. rewrite E1.
  destruct (reconstruct_launch_fails _ event Hengine)
    as (c & -> & Hraise).
  unfold bind. rewrite Hraise.
  eexists. split; [reflexivity|]. simpl. tauto.
Qed.

(** The outcome [_execute_action] leaves on the object it returns: the
    dry-run text, or what the implementation returned or raised. *)
Lemma _execute_action_outcome (a : ResponseAction) (event : SecurityEvent)
    (w : World) :
  exists b a' event' w',
    _execute_action config a event w = (Ok (b, a', event'), w') /\
    if dry_run (general config)
    then status a' = Completed /\ result a' = Some "Skipped (dry run mode)"
    else match impl_outcome config a (impl_calls w) with
         | Returned text => status a' = Completed /\ result a' = Some text
         | Raised message => status a' = Failed /\ error a' = Some message
         end.
Proof.
  destruct (execute_spec config a w) as (b & a' & w1 & E & _ & _ & Hc).
  assert (Hout :
    if dry_run (general config)
    then status a' = Completed /\ result a' = Some "Skipped (dry run mode)"
    else match impl_outcome config a (impl_calls w) with
         | Returned text => status a' = Completed /\ result a' = Some text
         | Raised message => status a' = Failed /\ error a' = Some message
         end).
  { destruct (dry_run (general config)); [tauto|].
    destruct Hc as [_ Hc]. destruct (impl_outcome _ _ _); tauto. }
  rewrite (_execute_action_spec config _ _ _ _ _ _ E). cbv zeta.
  destruct (write_ok _); [destruct (write_ok _)|]; eauto 10.
Qed.

(** C2 (amended). [verify_action] with [approve] set never looks at the
    stored status. For a stored action of any status, pending or
    terminal, whose class is built from one argument and whose event file
    exists, it rebuilds the action under the stored id, puts the stored
    status on it, and runs the execute sequence: the call returns a bool,
    [execute] runs once more (one more implementation call unless in
    dry-run mode), and when the action file can be written it then records
    the new outcome as approved: completed with the text the
    implementation returned (the dry-run text in dry-run mode), or failed
    with the message it raised. The one exception is a stored
    IsolateContainerAction on a host where the container engine cannot be
    started: rebuilding the object raises OSError, nothing is executed and
    both directories stay as they were. *)
Theorem approve_ignores_stored_status
    (action_id user : string) (w : World)
    (data : ActionFile) (event_data : EventDict) :
  actions_dir w !! action_id = Some data ->
  events_dir w !! event_id data = Some event_data ->
  In (a_name (action data)) one_argument_classes ->
  if reload_launch_fails config (a_name (action data))
  then exists w',
    verify_action config action_id true user w = (Exc OSError, w') /\
    actions_dir w' = actions_dir w /\ events_dir w' = events_dir w /\
    impl_calls w' = impl_calls w
  else
  exists b w' a,
    verify_action config action_id true user w = (Ok b, w') /\
    (id a = action_id /\ name a = a_name (action data) /\
     status a = a_status (action data)) /\
    impl_calls w' =
      (impl_calls w ++
       if dry_run (general config) then [] else [call_of a])%list /\
    (write_ok (writes w) = true ->
     exists f,
       actions_dir w' !! action_id = Some f /\
       a_verification_status (action f) = VApproved /\
       event_id f = d_id event_data /\
       if dry_run (general config)
       then a_status (action f) = Completed /\
            a_result (action f) = Some "Skipped (dry run mode)"
       else match impl_outcome config a (impl_calls w) with
            | Returned text =>
                a_status (action f) = Completed /\
                a_result (action f) = Some text
            | Raised message =>
                a_status (action f) = Failed /\
                a_error (action f) = Some message
            end).
Proof.
  intros Hact Hev Hcls.
  destruct (reload_launch_fails config (a_name (action data))) eqn:Hengine.
  { destruct (verify_action_launch_fails action_id user true w data
                event_data Hact Hev Hengine)
      as (w' & E & Ha & He & _ & Hc).
    eauto. }
  unfold verify_action, bind at 1, read_action. rewrite Hact.
  unfold bind at 1, read_event. rewrite Hev.
  destruct (event_from_dict_spec event_data w)
    as (event & w1 & E1 & Hdict & (_ & _ & _ & Hc1 & Hw1)).
  unfold bind at 1. rewrite E1.
  destruct (reconstruct_one_argument _ event Hcls Hengine) as (c & -> & Hc).
  destruct (Hc w1) as (a0 & k & E2 & Hname).
  unfold bind at 1. rewrite E2.
  set (a := set_verification_status VApproved
              (set_status (a_status (action data)) (set_id action_id a0))).
  destruct (_execute_action_facts config a event (add_uuids k w1))
    as (b & a' & e' & w' & E3 & _ & _ & _ & _ & _ & Hcalls).
  unfold bind. rewrite E3. simpl.
  exists b, w', a. split; [reflexivity|].
  split; [repeat split; exact Hname|]. split.
  - rewrite Hcalls. simpl. rewrite Hc1. reflexivity.
  - intros Hw.
    destruct (_execute_action_stored a event (add_uuids k w1))
      as (b2 & a2 & e2 & w2 & E4 & (Hid & Hvs) & Hterm & Hstored & _).
    { simpl. now rewrite Hw1. }
    rewrite E3 in E4. injection E4 as <- <- <- <-.
    destruct (_execute_action_outcome a event (add_uuids k w1))
      as (b3 & a3 & e3 & w3 & E5 & Hout).
    rewrite E3 in E5. injection E5 as <- <- <- <-.
    rewrite Hstored. simpl. rewrite lookup_insert_eq.
    eexists. split; [reflexivity|]. simpl.
    split; [exact Hvs|].
    split; [rewrite <- Hdict; reflexivity|].
    simpl in Hout. rewrite Hc1 in Hout. exact Hout.
Qed.

(** Rejecting works for the classes built from one argument: with both
    writes succeeding the action file ends rejected, the event's log gains
    exactly the rejection entry, and no implementation is called. *)
Lemma reject_one_argument_class
    (action_id user : string) (w : World)
    (data : ActionFile) (event_data : EventDict) :
  actions_dir w !! action_id = Some data ->
  events_dir w !! event_id data = Some event_data ->
  In (a_name (action data)) one_argument_classes ->
  reload_launch_fails config (a_name (action data)) = false ->
  write_ok (writes w) = true ->
  write_ok (S (writes w)) = true ->
  exists w' f d,
    verify_action config action_id false user w = (Ok true, w') /\
    actions_dir w' !! action_id = Some f /\
    a_status (action f) = Rejected /\
    a_verification_status (action f) = VRejected /\
    events_dir w' !! d_id event_data = Some d /\
    d_response_actions d =
      (d_response_actions event_data ++
       [{| log_action_id := action_id;
           log_name := a_name (action data);
           log_status := Rejected;
           log_result := Some "Action rejected by user" |}])%list /\
    impl_calls w' = impl_calls w.
Proof.
  intros Hact Hev Hcls Hengine Hw0 Hw1.
  unfold verify_action, bind at 1, read_action. rewrite Hact.
  unfold bind at 1, read_event. rewrite Hev.
  destruct (event_from_dict_spec event_data w)
    as (event & w1 & E1 & Hdict & (_ & _ & _ & Hc1 & Hwr)).
  unfold bind at 1. rewrite E1.
  destruct (reconstruct_one_argument _ event Hcls Hengine) as (c & -> & Hc).
  destruct (Hc w1) as (a0 & k & E2 & Hname).
  unfold bind at 1. rewrite E2.
  unfold bind, _save_action, _save_event. simpl.
  rewrite Hwr, Hw0. simpl. rewrite ?Hwr, Hw1. simpl.
  eexists _, _, _. split; [reflexivity|]. simpl.
  rewrite lookup_insert_eq.
  assert (Hid : ev_id event = d_id event_data) by now rewrite <- Hdict.
  rewrite Hid, lookup_insert_eq.
  repeat split; try reflexivity.
  - unfold rejected_entry. simpl. rewrite Hname. now rewrite <- Hdict.
  - exact Hc1.
Qed.

(** For a stored RotateCredentialsAction the constructor call of
    [verify_action] lacks an argument: the call raises TypeError before
    anything is executed or written, for approval and rejection alike. *)
Lemma verify_rotate_credentials_raises
    (action_id user : string) (approve : bool) (w : World)
    (data : ActionFile) (event_data : EventDict) :
  actions_dir w !! action_id = Some data ->
  events_dir w !! event_id data = Some event_data ->
  a_name (action data) = "RotateCredentialsAction" ->
  exists message w',
    verify_action config action_id approve user w =
      (Exc (TypeError message), w') /\
    actions_dir w' = actions_dir w /\ events_dir w' = events_dir w /\
    impl_calls w' = impl_calls w.
Proof.
  intros Hact Hev Hname.
  unfold verify_action, bind at 1, read_action. rewrite Hact.
  unfold bind at 1, read_event. rewrite Hev.
  destruct (event_from_dict_spec event_data w)
    as (event & w1 & E1 & _ & (He & Ha & _ & Hc & _)).
  unfold bind at 1. rewrite E1, Hname. simpl.
  unfold bind, raise. eexists _, _. split; [reflexivity|]. tauto.
Qed.

End Verification.

(** ** Concrete runs *)

Lemma approve_ignores_stored_status_witness :
  exists data event_data,
    actions_dir Demo.completed_block_world !! "uuid-2" = Some data /\
    events_dir Demo.completed_block_world !! event_id data = Some event_data /\
    In (a_name (action data)) one_argument_classes /\
    a_status (action data) = Completed /\
    exists b w' a,
      @verify_action IPv4.lib Demo.env DEFAULT_CONFIG "uuid-2" true "admin"
        Demo.completed_block_world = (Ok b, w') /\
      id a = "uuid-2" /\ status a = Completed /\
      impl_calls w' =
        (impl_calls Demo.completed_block_world ++ [call_of a])%list /\
      exists f,
        actions_dir w' !! "uuid-2" = Some f /\
        a_verification_status (action f) = VApproved.
Proof.
  assert (exists data event_data,
    actions_dir Demo.completed_block_world !! "uuid-2" = Some data /\
    events_dir Demo.completed_block_world !! event_id data = Some event_data /\
    a_name (action data) = "ForensicCaptureAction" /\
    a_status (action data) = Completed)
    as (data & event_data & H1 & H2 & Hname & Hst0).
  { eexists _, _. split; [vm_compute; reflexivity|].
    split; [vm_compute; reflexivity|]. split; reflexivity. }
  assert (H3 : In (a_name (action data)) one_argument_classes)
    by (rewrite Hname; simpl; tauto).
  exists data, event_data.
  split; [exact H1|]. split; [exact H2|]. split; [exact H3|].
  split; [exact Hst0|].
  assert (H := @approve_ignores_stored_status IPv4.lib Demo.env
                 DEFAULT_CONFIG "uuid-2" "admin" Demo.completed_block_world
                 data event_data H1 H2 H3).
  rewrite Hname in H.
  change (@reload_launch_fails Demo.env DEFAULT_CONFIG
            "ForensicCaptureAction") with false in H.
  destruct H as (b & w' & a & E & (Hid & _ & Hst) & Hcalls & Hfile).
  destruct (Hfile eq_refl) as (f & Hf & Hvs & _).
  exists b, w', a. split; [exact E|]. split; [exact Hid|].
  split; [congruence|]. split; [exact Hcalls|]. eauto.
Defined.

(** C2 as stated fails: the capture stored under ["uuid-2"] is completed,
    yet approving it returns [True] and runs its implementation again. *)
Lemma approve_completed_counterexample :
  exists f w',
    actions_dir Demo.completed_block_world !! "uuid-2" = Some f /\
    a_status (action f) = Completed /\
    @verify_action IPv4.lib Demo.env DEFAULT_CONFIG "uuid-2" true "admin"
      Demo.completed_block_world = (Ok true, w') /\
    impl_calls w' =
      (impl_calls Demo.completed_block_world ++
       [{| call_action := "uuid-2";
           call_params := ForensicCapture "placeholder"
                            ["network"; "process"; "filesystem"] |}])%list.
Proof.
  eexists _, _.
  split; [vm_compute; reflexivity|].
  split; [reflexivity|].
  split; [vm_compute; reflexivity|].
  vm_compute. reflexivity.
Qed.

Lemma stored_severity_is_supplied_witness :
  @write_ok Demo.env (writes empty_world) = true /\
  exists d,
    events_dir (snd (@submit IPv4.lib Demo.env DEFAULT_CONFIG "suspicious_ip"
                       "firewall" Demo.ip_event_details 42 empty_world))
      !! @uuid4 Demo.env (uuids empty_world) = Some d /\
    d_id d = @uuid4 Demo.env (uuids empty_world) /\
    d_severity d = 42 /\
    (0 <= d_severity d <= 100 <-> 0 <= 42 <= 100).
Proof.
  split; [reflexivity|].
  apply (@stored_severity_is_supplied IPv4.lib Demo.env DEFAULT_CONFIG).
  reflexivity.
Defined.

(** C3 as stated fails: a submission with severity 150 is filed with
    severity 150. *)
Lemma severity_out_of_range_counterexample :
  exists d,
    events_dir (snd (@submit IPv4.lib Demo.env DEFAULT_CONFIG "suspicious_ip"
                       "firewall" Demo.ip_event_details 150 empty_world))
      !! "uuid-0" = Some d /\
    d_severity d = 150 /\
    ~ (0 <= d_severity d <= 100).
Proof.
  eexists. split; [vm_compute; reflexivity|]. simpl. split; [reflexivity|lia].
Qed.



(** C5, evaluated where the round trip breaks. A block of [203.0.113.42]
    is built, and it and its event are saved. Reloading the action by id in
    [verify_action] rebuilds it around the text "placeholder": the
    implementation is called with that text, not with the saved target. *)
Theorem reloaded_action_loses_parameters :
  let event := Demo.event "suspicious_ip" Demo.ip_event_details 60 in
  exists a w0 w1 w2 w3,
    @BlockIPAction IPv4.lib Demo.env DEFAULT_CONFIG event "203.0.113.42" None
      empty_world = (Ok a, w0) /\
    params a = BlockIP "203.0.113.42" 3600 /\
    requires_verification a = true /\
    @_save_event Demo.env event w0 = (Ok tt, w1) /\
    @_save_action Demo.env a event w1 = (Ok tt, w2) /\
    @verify_action IPv4.lib Demo.env DEFAULT_CONFIG (id a) true "admin" w2
      = (Ok false, w3) /\
    impl_calls w3 =
      [{| call_action := id a; call_params := BlockIP "placeholder" 3600 |}].
Proof.
  cbv zeta. eexists _, _, _, _, _.
  split; [reflexivity|].
  split; [reflexivity|].
  split; [vm_compute; reflexivity|].
  split; [reflexivity|].
  split; [reflexivity|].
  split; vm_compute; reflexivity.
Qed.

(** C8, evaluated where rejection breaks. The rotation stored under
    ["uuid-1"] is pending and awaits verification; rejecting it raises
    TypeError and leaves both directories as they were, so the action
    stays pending and the event's log gains nothing. *)
Theorem reject_pending_rotation_raises :
  exists f message w',
    actions_dir Demo.pending_rotate_world !! "uuid-1" = Some f /\
    a_name (action f) = "RotateCredentialsAction" /\
    a_status (action f) = Pending /\
    a_requires_verification (action f) = true /\
    @verify_action IPv4.lib Demo.env DEFAULT_CONFIG "uuid-1" false "admin"
      Demo.pending_rotate_world = (Exc (TypeError message), w') /\
    actions_dir w' = actions_dir Demo.pending_rotate_world /\
    events_dir w' = events_dir Demo.pending_rotate_world.
Proof.
  eexists _, _, _.
  split; [vm_compute; reflexivity|].
  do 3 (split; [reflexivity|]).
  split; [vm_compute; reflexivity|].
  split; vm_compute; reflexivity.
Qed.

Lemma auto_actions_never_stored_pending_witness :
  no_auto_pending empty_world /\
  let event := Demo.event "suspicious_ip" Demo.ip_event_details 75 in
  let r := @handle_security_event IPv4.lib Demo.env DEFAULT_CONFIG event
             empty_world in
  no_auto_pending (snd r) /\
  fst r = Ok "event-1" /\
  exists actions w0 l' event',
    @handle_loop Demo.env DEFAULT_CONFIG actions event w0
      = (Ok (l', event'), snd r) /\
    Forall2 processed actions l' /\
    impl_calls (snd r) = map call_of (List.filter auto actions).
Proof.
  assert (H : no_auto_pending empty_world).
  { intros i f Hf. simpl in Hf. rewrite lookup_empty in Hf. discriminate. }
  split; [exact H|]. cbv zeta.
  destruct (@auto_actions_never_stored_pending IPv4.lib Demo.env
              DEFAULT_CONFIG
              (Demo.event "suspicious_ip" Demo.ip_event_details 75)
              empty_world H) as (Hinv & Hrun & Hret).
  split; [exact Hinv|].
  assert (Hok := Hret (fun n => eq_refl) eq_refl).
  split; [exact Hok|].
  destruct (Hrun _ Hok) as (actions & w0 & l' & e' & _ & E & Hall & _ & Hc).
  exists actions, w0, l', e'. split; [exact E|]. split; [exact Hall|].
  exact Hc.
Defined.



(** * Further properties of the script *)

(** ** Configuration merge *)

Lemma dict_get_set_eq key value d :
  dict_get key (dict_set key value d) = Some value.
Proof.
  induction d as [|[k v] rest IH]; simpl.
  - now rewrite String.eqb_refl.
  - destruct (String.eqb k key) eqn:E; simpl; rewrite E; [reflexivity|exact IH].
Qed.

Lemma dict_get_set_ne key key' value d :
  key <> key' ->
  dict_get key' (dict_set key value d) = dict_get key' d.
Proof.
  intros Hne. induction d as [|[k v] rest IH]; simpl.
  - destruct (String.eqb_spec key key'); [contradiction|reflexivity].
  - destruct (String.eqb_spec k key) as [->|Hk]; simpl.
    + destruct (String.eqb_spec key key'); [contradiction|reflexivity].
    + destruct (String.eqb k key'); [reflexivity|exact IH].
Qed.

Lemma dict_get_None key d :
  ~ In key (map fst d) -> dict_get key d = None.
Proof.
  induction d as [|[k v] rest IH]; simpl; [reflexivity|].
  intros Hnot. destruct (String.eqb_spec k key) as [->|_]; [tauto|].
  apply IH. tauto.
Qed.

Lemma dict_set_keys key value d :
  map fst (dict_set key value d) =
  if existsb (String.eqb key) (map fst d) then map fst d
  else (map fst d ++ [key])%list.
Proof.
  induction d as [|[k v] rest IH]; simpl; [reflexivity|].
  rewrite (String.eqb_sym key k).
  destruct (String.eqb_spec k key) as [->|Hk]; simpl; [reflexivity|].
  rewrite IH. now destruct (existsb _ _).
Qed.

(** The recursive call on [base[key]] is [_merge_configs] itself. *)
Lemma merged_entry_dicts update base :
  merged_entry (CDict update) (Some (CDict base)) =
  CDict (_merge_configs base update).
Proof.
  simpl. f_equal. revert base.
  induction update as [|[k v] rest IH]; intros base; simpl; [reflexivity|].
  apply IH.
Qed.

(** X1. After [_merge_configs(base, update)], looking a key up gives: the
    old value when the update does not mention the key; the update's value
    when that is not a dict or the old value is not a dict (or missing);
    and the recursive merge of the two when both are dicts. The update's
    keys are distinct, as those of a dict are. *)
Theorem merge_configs_lookup (base update : list (string * cfg_value))
    (key : string) :
  List.NoDup (map fst update) ->
  dict_get key (_merge_configs base update) =
  match dict_get key update with
  | None => dict_get key base
  | Some (CLeaf text) => Some (CLeaf text)
  | Some (CDict u) =>
      match dict_get key base with
      | Some (CDict b) => Some (CDict (_merge_configs b u))
      | _ => Some (CDict u)
      end
  end.
Proof.
  intros Hnd. revert base.
  induction update as [|[k v] rest IH]; intros base; simpl; [reflexivity|].
  inversion Hnd as [|? ? Hk Hrest]; subst. simpl in Hk.
  rewrite (IH Hrest).
  destruct (String.eqb_spec k key) as [->|Hne].
  - rewrite (dict_get_None _ _ Hk), dict_get_set_eq.
    destruct v as [text|u]; [reflexivity|].
    destruct (dict_get key base) as [[t|b]|]; try reflexivity.
    now rewrite merged_entry_dicts.
  - now rewrite !(dict_get_set_ne _ _ _ _ Hne).
Qed.

Lemma merge_configs_lookup_witness :
  List.NoDup (map fst DemoConfig.user_file) /\
  dict_get "network" (_merge_configs DemoConfig.defaults DemoConfig.user_file)
  = Some (CDict [("block_duration", CLeaf "3600");
                 ("max_auto_block_score", CLeaf "50")]).
Proof.
  assert (H : List.NoDup (map fst DemoConfig.user_file)).
  { simpl. repeat constructor; simpl; intuition discriminate. }
  split; [exact H|].
  rewrite (merge_configs_lookup DemoConfig.defaults DemoConfig.user_file
             "network" H).
  reflexivity.
Defined.

(** X2. [_merge_configs] never drops or reorders a key of [base]: the keys
    of the result are those of [base], in place, followed by the update's
    new keys in the update's order. *)
Theorem merge_configs_keys (base update : list (string * cfg_value)) :
  List.NoDup (map fst update) ->
  map fst (_merge_configs base update) =
  (map fst base ++
   List.filter (fun k => negb (existsb (String.eqb k) (map fst base)))
          (map fst update))%list.
Proof.
  intros Hnd. revert base.
  induction update as [|[k v] rest IH]; intros base; simpl.
  - now rewrite app_nil_r.
  - inversion Hnd as [|? ? Hk Hrest]; subst. simpl in Hk.
    rewrite (IH Hrest), dict_set_keys.
    destruct (existsb (String.eqb k) (map fst base)) eqn:E; simpl.
    + reflexivity.
    + rewrite <- app_assoc. simpl. f_equal. f_equal.
      apply filter_ext_in_iff. intros k' Hin.
      rewrite existsb_app. simpl. rewrite orb_false_r.
      destruct (String.eqb_spec k' k) as [->|_]; [contradiction|].
      now rewrite orb_false_r.
Qed.

Lemma merge_configs_keys_witness :
  List.NoDup (map fst DemoConfig.user_file) /\
  map fst (_merge_configs DemoConfig.defaults DemoConfig.user_file)
  = ["general"; "network"; "site"].
Proof.
  assert (H : List.NoDup (map fst DemoConfig.user_file)).
  { simpl. repeat constructor; simpl; intuition discriminate. }
  split; [exact H|].
  rewrite (merge_configs_keys DemoConfig.defaults DemoConfig.user_file H).
  reflexivity.
Defined.

(** ** The capture directory name *)

Lemma is_safe_char_underscore : is_safe_char "_"%char = true.
Proof. reflexivity. Qed.

(** X3. [target_safe] keeps the length of the target, consists of letters,
    digits, [_] and [-] only (so it holds no [/] and no [.] and names a
    single path component), and sanitising twice changes nothing more. *)
Theorem target_safe_is_safe (target : string) :
  String.length (target_safe target) = String.length target /\
  Forall (fun c => is_safe_char c = true)
         (list_ascii_of_string (target_safe target)) /\
  ~ In "/"%char (list_ascii_of_string (target_safe target)) /\
  ~ In "."%char (list_ascii_of_string (target_safe target)) /\
  target_safe (target_safe target) = target_safe target.
Proof.
  assert (Hsafe : Forall (fun c => is_safe_char c = true)
                    (list_ascii_of_string (target_safe target))).
  { induction target as [|c rest IH]; simpl; [constructor|].
    constructor; [|exact IH].
    destruct (is_safe_char c) eqn:E; [exact E|reflexivity]. }
  split.
  { clear Hsafe. induction target as [|c rest IH]; simpl; [reflexivity|].
    now rewrite IH. }
  split; [exact Hsafe|].
  rewrite List.Forall_forall in Hsafe.
  split; [intros Hin; now apply Hsafe in Hin|].
  split; [intros Hin; now apply Hsafe in Hin|].
  induction target as [|c rest IH]; simpl; [reflexivity|].
  rewrite IH.
  - destruct (is_safe_char c) eqn:E; [now rewrite E|reflexivity].
  - intros x Hx. apply Hsafe. simpl. now right.
Qed.

(** ** What the policy engine derives *)

Section DerivedActions.

Context {IP : IpAddressLib} {X : Externals}.
Variable config : Config.

Ltac split_derivation :=
  repeat match goal with
  | |- context [String.eqb (event_type ?e) ?k] =>
      destruct (String.eqb (event_type e) k)
  | |- context [truthy ?v] => destruct (truthy v)
  | |- context [auto_capture ?f] => destruct (auto_capture f)
  | |- context [available ?p !! ?k] => destruct (available p !! k)
  end.

Ltac finish_derivation :=
  split_derivation; unfold ret; simpl;
    match goal with
    | |- exists l, (Ok ?x, _) = _ /\ _ => exists x
    end;
    (split; [simpl; rewrite ?add_uuids_0; reflexivity|]; simpl;
     split; [reflexivity|]; split; [|lia];
     repeat constructor).

(** The derivation in one statement: what it returns and what it changes,
    unless the engine cannot be started. *)
Lemma determine_response_actions_spec (event : SecurityEvent) (w : World) :
  event_launch_fails config event = false ->
  exists l,
    _determine_response_actions config event w
      = (Ok l, add_uuids (length l) w) /\
    map id l = map uuid4 (seq (uuids w) (length l)) /\
    Forall unstarted l /\
    (length l <= 3)%nat.
Proof.
  unfold event_launch_fails. intros H.
  unfold _determine_response_actions, actions_for_type,
    suggested_playbook_action, bind.
  destruct (String.eqb (event_type event) "suspicious_ip");
    [finish_derivation|].
  destruct (String.eqb (event_type event) "compromised_container");
    [|finish_derivation].
  simpl in H.
  destruct (truthy (details event !! "container_id")) as [c|];
    [|finish_derivation].
  rewrite IsolateContainerAction_spec, H.
  finish_derivation.
Qed.


(** X5. When [uuid4] never repeats, the derived actions have pairwise
    distinct ids, and none of them is an id drawn before the call (the
    event's own id, the ids of the files already in the store). The one
    case without derived actions is the derivation raising because the
    container engine cannot be started. *)
Theorem derived_action_ids_distinct (event : SecurityEvent) (w : World) :
  (forall m n, uuid4 m = uuid4 n -> m = n) ->
  if event_launch_fails config event
  then _determine_response_actions config event w
         = (Exc OSError, add_uuids 1 w)
  else exists l w',
    _determine_response_actions config event w = (Ok l, w') /\
    List.NoDup (map id l) /\
    forall a n, In a l -> (n < uuids w)%nat -> id a <> uuid4 n.
Proof.
  intros Hinj.
  destruct (event_launch_fails config event) eqn:Hengine;
    [now apply determine_launch_fails|].
  destruct (determine_response_actions_spec event w Hengine)
    as (l & E & Hids & _).
  exists l, (add_uuids (length l) w). split; [exact E|]. split.
  - rewrite Hids. apply Finite.Injective_map_NoDup; [exact Hinj|].
    apply List.seq_NoDup.
  - intros a n Ha Hn Heq.
    apply (in_map id) in Ha. rewrite Hids in Ha.
    apply in_map_iff in Ha as (m & Hm & Hin).
    apply in_seq in Hin. rewrite Heq in Hm. apply Hinj in Hm. lia.
Qed.

(** X6. Evidence that is missing or empty skips the action instead of
    failing: a suspicious-ip event without [ip_address], a
    compromised-container event without [container_id] and a
    credential-compromise event without [credential_type] or without
    [identifier] get no action from their type. *)
Theorem missing_evidence_skips_action (event : SecurityEvent) (w : World) :
  (event_type event = "suspicious_ip" /\
   truthy (details event !! "ip_address") = None) \/
  (event_type event = "compromised_container" /\
   truthy (details event !! "container_id") = None) \/
  (event_type event = "credential_compromise" /\
   (truthy (details event !! "credential_type") = None \/
    truthy (details event !! "identifier") = None)) ->
  actions_for_type config event w = (Ok [], w).
Proof.
  unfold actions_for_type.
  intros [[-> H]|[[-> H]|[-> [H|H]]]]; simpl; rewrite H; try reflexivity.
  now destruct (truthy (details event !! "credential_type")).
Qed.

(** X7. A playbook can be derived twice. For a malware-detection,
    unauthorized-access or data-exfiltration event whose
    [suggested_playbook] names the playbook of its own type, and that
    playbook is available, the list starts with an ExecutePlaybookAction
    for it and ends with a second one, with the same parameters and the
    same verification requirement. *)
Theorem suggested_playbook_is_derived_twice
    (event : SecurityEvent) (w : World) :
  In (event_type event)
     ["malware_detection"; "unauthorized_access"; "data_exfiltration"] ->
  details event !! "suggested_playbook" = Some (event_type event) ->
  is_Some (available (playbooks config) !! event_type event) ->
  exists first middle last w',
    _determine_response_actions config event w
      = (Ok (first :: middle ++ [last])%list, w') /\
    params first = ExecutePlaybook (event_type event) (details event) /\
    params last = ExecutePlaybook (event_type event) (details event) /\
    requires_verification first = requires_verification last.
Proof.
  intros Hin Hsug [script Hav].
  unfold _determine_response_actions, actions_for_type,
    suggested_playbook_action, bind.
  rewrite Hsug.
  destruct Hin as [H|[H|[H|[]]]]; rewrite <- H in *; simpl; rewrite Hav;
    split_derivation; unfold ret; simpl; rewrite ?Hav; simpl;
    match goal with
    | |- context [(Ok [?a; ?m; ?b], ?w')] => exists a, [m], b, w'
    | |- context [(Ok [?a; ?b], ?w')] => exists a, [], b, w'
    end; repeat split; reflexivity.
Qed.

End DerivedActions.

(** ** The trail a handled event leaves *)

Section Trail.

Context {IP : IpAddressLib} {X : Externals}.
Variable config : Config.

Lemma logged_ev_id event done : ev_id (logged event done) = ev_id event.
Proof.
  revert event. induction done as [|a rest IH]; intros event; simpl;
    [reflexivity|].
  now rewrite IH.
Qed.

Lemma logged_response_actions event done :
  response_actions (logged event done) =
  (response_actions event ++ map executed_entry done)%list.
Proof.
  revert event. induction done as [|a rest IH]; intros event; simpl.
  - now rewrite app_nil_r.
  - rewrite IH. simpl. now rewrite <- app_assoc.
Qed.

Lemma action_file_logged a event done :
  action_file a (logged event done) = action_file a event.
Proof. unfold action_file. now rewrite logged_ev_id. Qed.

(** One pass of the loop body with a working disk. *)
Lemma handle_one_working_disk (a : ResponseAction) (event : SecurityEvent)
    (w : World) :
  (forall n, write_ok n = true) ->
  exists a' w',
    handle_one config a event w
      = (Ok (a', logged event (List.filter auto [a'])), w') /\
    (id a' = id a /\ name a' = name a /\ params a' = params a /\
     requires_verification a' = requires_verification a) /\
    (requires_verification a = true -> a' = a) /\
    (requires_verification a = false ->
     status a' = Completed \/ status a' = Failed) /\
    impl_calls w' =
      (impl_calls w ++
       if dry_run (general config) then []
       else map call_of (List.filter auto [a]))%list /\
    outbox w' = (outbox w ++ [notice_for (ev_id event) a'])%list /\
    actions_dir w' = <[id a := action_file a' event]> (actions_dir w) /\
    events_dir w' =
      (if auto a
       then <[ev_id event :=
                event_to_dict (logged event (List.filter auto [a']))]>
              (events_dir w)
       else events_dir w).
Proof.
  intros Hw. unfold handle_one, auto.
  destruct (requires_verification a) eqn:Hrv; simpl.
  - unfold bind, _save_action, notify. rewrite Hw. simpl.
    exists a. rewrite Hrv. simpl. eexists. split; [reflexivity|]. simpl.
    unfold notice_for. rewrite Hrv.
    destruct (dry_run (general config)); rewrite ?app_nil_r;
      repeat split; try reflexivity; discriminate.
  - destruct (execute_spec config a w)
      as (b & a' & w1 & E & (Hid & Hn & Hp & Hrv' & _) & Hworld & Hc).
    destruct Hworld as (He & Ha & Ho & Hwr & _).
    assert (Hterm := execute_terminal _ _ _ _ _ _ E).
    unfold bind. rewrite (_execute_action_spec config _ _ _ _ _ _ E).
    cbv zeta. unfold _save_action, _save_event, notify.
    rewrite ?Hw. simpl. rewrite ?Hw. simpl.
    exists a'. rewrite Hrv', Hrv. simpl. eexists. split; [reflexivity|].
    simpl. unfold notice_for. rewrite Hrv', Hid, He, Ha, Ho, Hrv.
    assert (Hcalls : impl_calls w1 =
              (impl_calls w ++
               if dry_run (general config) then [] else [call_of a])%list).
    { destruct (dry_run (general config)).
      - rewrite app_nil_r. tauto.
      - tauto. }
    repeat split; try reflexivity; try assumption; try discriminate.
    intros _. exact Hterm.
Qed.

Lemma processed_auto a a' : processed a a' -> auto a' = auto a.
Proof. intros [(_ & _ & _ & H) _]. unfold auto. now rewrite H. Qed.

Lemma processed_no_auto actions l' :
  Forall2 processed actions l' ->
  existsb auto actions = false -> List.filter auto l' = [].
Proof.
  induction 1 as [|a a' rest l2 Hp _ IH]; simpl; [reflexivity|].
  rewrite (processed_auto _ _ Hp).
  destruct (auto a); simpl; [discriminate|exact IH].
Qed.

(** The whole loop with a working disk. *)
Lemma handle_loop_working_disk (actions : list ResponseAction)
    (event : SecurityEvent) (w : World) :
  (forall n, write_ok n = true) ->
  exists l' w',
    handle_loop config actions event w
      = (Ok (l', logged event (List.filter auto l')), w') /\
    Forall2 processed actions l' /\
    impl_calls w' =
      (impl_calls w ++
       if dry_run (general config) then []
       else map call_of (List.filter auto actions))%list /\
    outbox w' = (outbox w ++ map (notice_for (ev_id event)) l')%list /\
    (forall k, ~ In k (map id actions) ->
               actions_dir w' !! k = actions_dir w !! k) /\
    (List.NoDup (map id actions) ->
     forall a', In a' l' ->
                actions_dir w' !! id a' = Some (action_file a' event)) /\
    events_dir w' =
      (if existsb auto actions
       then <[ev_id event :=
                event_to_dict (logged event (List.filter auto l'))]>
              (events_dir w)
       else events_dir w).
Proof.
  intros Hw. revert event w.
  induction actions as [|a rest IH]; intros event w.
  - exists [], w. simpl. unfold ret.
    split; [reflexivity|]. split; [constructor|].
    destruct (dry_run (general config)); rewrite !app_nil_r;
      repeat split; try reflexivity; intros _ a' [].
  - destruct (handle_one_working_disk a event w Hw)
      as (a1 & w1 & E1 & Hsame & Hkeep & Hterm & Hc1 & Ho1 & Ha1 & He1).
    set (e1 := logged event (List.filter auto [a1])) in *.
    destruct (IH e1 w1)
      as (l2 & w2 & E2 & Hall & Hc2 & Ho2 & Hother & Hfiles & He2).
    assert (Hp : processed a a1) by (repeat split; tauto).
    assert (Hauto : auto a1 = auto a) by (apply processed_auto; exact Hp).
    assert (Hlog : logged e1 (List.filter auto l2) =
                   logged event (List.filter auto (a1 :: l2))).
    { unfold e1. simpl. now destruct (auto a1). }
    rewrite (handle_loop_cons config _ _ _ _ _ _ _ E1), E2.
    exists (a1 :: l2), w2. rewrite <- Hlog.
    split; [reflexivity|]. split; [constructor; assumption|].
    assert (Hid1 : id a1 = id a) by tauto.
    assert (Hev : ev_id e1 = ev_id event) by apply logged_ev_id.
    split; [|split; [|split; [|split]]].
    + rewrite Hc2, Hc1. simpl.
      destruct (dry_run (general config)); [now rewrite !app_nil_r|].
      destruct (auto a); simpl; now rewrite <- app_assoc.
    + rewrite Ho2, Ho1, Hev, <- app_assoc. reflexivity.
    + intros k Hk. simpl in Hk. rewrite Hother by tauto.
      rewrite Ha1. apply lookup_insert_ne. tauto.
    + intros Hnd a' [<-|Hin].
      * inversion Hnd as [|? ? Hnot Hnd']; subst.
        rewrite Hid1, Hother by exact Hnot.
        rewrite Ha1. apply lookup_insert_eq.
      * inversion Hnd as [|? ? Hnot Hnd']; subst.
        rewrite (Hfiles Hnd' a' Hin). unfold e1.
        now rewrite action_file_logged.
    + rewrite He2, He1, Hev. simpl.
      destruct (existsb auto rest) eqn:Hex.
      * rewrite orb_true_r. destruct (auto a).
        -- now rewrite insert_insert_eq.
        -- reflexivity.
      * rewrite orb_false_r.
        rewrite (processed_no_auto _ _ Hall Hex). simpl.
        reflexivity.
Qed.

(** X8. With a working disk the loop of [handle_security_event] returns
    normally and has then called the implementation of exactly the actions
    that need no verification, once each and in list order (none at all in
    dry-run mode); an action that needs verification is never executed by
    the loop. *)
Theorem handle_loop_executes_exactly_auto (actions : list ResponseAction)
    (event : SecurityEvent) (w : World) :
  (forall n, write_ok n = true) ->
  exists r w',
    handle_loop config actions event w = (Ok r, w') /\
    impl_calls w' =
      (impl_calls w ++
       if dry_run (general config) then []
       else map call_of (List.filter auto actions))%list.
Proof.
  intros Hw.
  destruct (handle_loop_working_disk actions event w Hw)
    as (l' & w' & E & _ & Hc & _).
  eauto.
Qed.

(** X9. With a working disk the loop sends exactly one notification per
    action, in list order: a verification request for an action that needs
    verification, otherwise a result notice carrying the status the action
    ended in. *)
Theorem handle_loop_notifies_each_action (actions : list ResponseAction)
    (event : SecurityEvent) (w : World) :
  (forall n, write_ok n = true) ->
  exists l' event' w',
    handle_loop config actions event w = (Ok (l', event'), w') /\
    Forall2 processed actions l' /\
    outbox w' = (outbox w ++ map (notice_for (ev_id event)) l')%list.
Proof.
  intros Hw.
  destruct (handle_loop_working_disk actions event w Hw)
    as (l' & w' & E & Hall & _ & Ho & _).
  eauto 10.
Qed.

(** X10. With a working disk the event's log grows by one entry per
    executed action, in execution order, each entry carrying the id, name,
    status and result of the action as it ended; actions awaiting
    verification add nothing. Once an action has been executed, the event
    file holds exactly this event object. *)
Theorem handle_loop_logs_executed_actions (actions : list ResponseAction)
    (event : SecurityEvent) (w : World) :
  (forall n, write_ok n = true) ->
  exists l' event' w',
    handle_loop config actions event w = (Ok (l', event'), w') /\
    Forall2 processed actions l' /\
    response_actions event' =
      (response_actions event
       ++ map executed_entry (List.filter auto l'))%list /\
    events_dir w' =
      (if existsb auto actions
       then <[ev_id event := event_to_dict event']> (events_dir w)
       else events_dir w).
Proof.
  intros Hw.
  destruct (handle_loop_working_disk actions event w Hw)
    as (l' & w' & E & Hall & _ & _ & _ & _ & He).
  exists l', (logged event (List.filter auto l')), w'.
  split; [exact E|]. split; [exact Hall|].
  split; [apply logged_response_actions|exact He].
Qed.

(** X11. With a working disk and distinct action ids, every action of the
    list has its file when the loop ends, written from the object as the
    loop left it and pointing to the event: an action that needs
    verification is filed unchanged, an executed one in its final state;
    files of other ids are untouched. *)
Theorem handle_loop_files_every_action (actions : list ResponseAction)
    (event : SecurityEvent) (w : World) :
  (forall n, write_ok n = true) ->
  List.NoDup (map id actions) ->
  exists l' event' w',
    handle_loop config actions event w = (Ok (l', event'), w') /\
    Forall2 processed actions l' /\
    (forall a', In a' l' ->
                actions_dir w' !! id a' = Some (action_file a' event)) /\
    (forall k, ~ In k (map id actions) ->
               actions_dir w' !! k = actions_dir w !! k).
Proof.
  intros Hw Hnd.
  destruct (handle_loop_working_disk actions event w Hw)
    as (l' & w' & E & Hall & _ & _ & Hother & Hfiles & _).
  exists l', (logged event (List.filter auto l')), w'.
  split; [exact E|]. split; [exact Hall|].
  split; [exact (Hfiles Hnd)|exact Hother].
Qed.

End Trail.

(** ** Failing writes and dry runs *)

Section ErrorPaths.

Context {IP : IpAddressLib} {X : Externals}.
Variable config : Config.



Lemma handle_one_dry_run a event w :
  dry_run (general config) = true ->
  impl_calls (snd (handle_one config a event w)) = impl_calls w.
Proof.
  intros Hdry. unfold handle_one.
  destruct (requires_verification a); simpl.
  - unfold bind, _save_action. destruct (write_ok (writes w)); reflexivity.
  - destruct (_execute_action_facts config a event w)
      as (b & a' & e' & w' & E & _ & _ & _ & _ & _ & Hc).
    unfold bind. rewrite E. simpl. rewrite Hc, Hdry. apply app_nil_r.
Qed.

Lemma handle_loop_dry_run actions event w :
  dry_run (general config) = true ->
  impl_calls (snd (handle_loop config actions event w)) = impl_calls w.
Proof.
  intros Hdry. revert event w.
  induction actions as [|a rest IH]; intros event w; [reflexivity|].
  simpl. unfold bind at 1.
  pose proof (handle_one_dry_run a event w Hdry) as H1.
  destruct (handle_one config a event w) as [[[a' e']|x] w1]; simpl in *.
  - unfold bind. specialize (IH e' w1).
    destruct (handle_loop config rest e' w1) as [[r|x] w2]; simpl in *;
      congruence.
  - exact H1.
Qed.

(** X14. In dry-run mode handling an event calls no implementation at all,
    whatever is derived, whether or not the writes succeed and whether or
    not the container engine starts. *)
Theorem dry_run_event_calls_no_implementation
    (event : SecurityEvent) (w : World) :
  dry_run (general config) = true ->
  impl_calls (snd (handle_security_event config event w)) = impl_calls w.
Proof.
  intros Hdry.
  unfold handle_security_event, bind at 1, _save_event.
  destruct (write_ok (writes w)); simpl; [|reflexivity].
  unfold bind at 1. simpl. unfold bind at 1.
  match goal with
  | |- context [_determine_response_actions config event ?w0] =>
      destruct (draws_determine config event w0) as ([l|x] & k & ->);
        [|reflexivity]
  end.
  unfold bind at 1.
  match goal with
  | |- context [handle_loop config l event ?w0] =>
      pose proof (handle_loop_dry_run l event w0 Hdry) as H;
      destruct (handle_loop config l event w0) as [[r|x] w2]; exact H
  end.
Qed.

(** X29. When deriving the actions fails to start the container engine (a
    compromised-container event with a container id, the engine binary
    missing), [handle_security_event] raises the OSError of the
    constructor: the event is filed and announced by then, one uuid is
    drawn, and no action is filed, requested or executed, the forensic
    capture of the event included. *)
Theorem engine_failure_aborts_handling (event : SecurityEvent) (w : World) :
  event_launch_fails config event = true ->
  write_ok (writes w) = true ->
  exists w',
    handle_security_event config event w = (Exc OSError, w') /\
    events_dir w' = <[ev_id event := event_to_dict event]> (events_dir w) /\
    actions_dir w' = actions_dir w /\
    outbox w' = (outbox w ++ [EventNotice (ev_id event)])%list /\
    impl_calls w' = impl_calls w /\
    uuids w' = S (uuids w).
Proof.
  intros Hengine Hw. rewrite handle_security_event_unfold, Hw.
  rewrite (determine_launch_fails config event _ Hengine).
  eexists. split; [reflexivity|].
  unfold _save_event, notify. rewrite Hw. simpl. tauto.
Qed.

End ErrorPaths.

(** ** More on verification *)

Section VerifyMore.

Context {IP : IpAddressLib} {X : Externals}.
Variable config : Config.

(** X15. Verifying an id that has no action file, or whose event file is
    missing, returns [False] and leaves the world exactly as it was, for
    approval and rejection alike. *)
Theorem verify_action_missing_files
    (action_id user : string) (approve : bool) (w : World) :
  actions_dir w !! action_id = None \/
  (exists data, actions_dir w !! action_id = Some data /\
                events_dir w !! event_id data = None) ->
  verify_action config action_id approve user w = (Ok false, w).
Proof.
  unfold verify_action, bind, read_action, read_event.
  intros [->|(data & -> & ->)]; reflexivity.
Qed.

(** X16. Rejecting a stored action of a class built from one argument does
    not depend on its stored status. With both writes succeeding the call
    returns [True], the action file ends rejected, the event's log gains
    exactly one entry, the rejection, and nothing is executed and no
    notification is sent. The one exception is a stored isolation on a
    host where the container engine cannot be started: rebuilding the
    object raises OSError and both directories stay as they were. *)
Theorem reject_records_one_entry
    (action_id user : string) (w : World)
    (data : ActionFile) (event_data : EventDict) :
  actions_dir w !! action_id = Some data ->
  events_dir w !! event_id data = Some event_data ->
  In (a_name (action data)) one_argument_classes ->
  write_ok (writes w) = true ->
  write_ok (S (writes w)) = true ->
  if reload_launch_fails config (a_name (action data))
  then exists w',
    verify_action config action_id false user w = (Exc OSError, w') /\
    actions_dir w' = actions_dir w /\ events_dir w' = events_dir w
  else
  exists w' f d,
    verify_action config action_id false user w = (Ok true, w') /\
    actions_dir w' !! action_id = Some f /\
    a_status (action f) = Rejected /\
    a_verification_status (action f) = VRejected /\
    events_dir w' !! d_id event_data = Some d /\
    d_response_actions d =
      (d_response_actions event_data ++
       [{| log_action_id := action_id;
           log_name := a_name (action data);
           log_status := Rejected;
           log_result := Some "Action rejected by user" |}])%list /\
    impl_calls w' = impl_calls w /\
    outbox w' = outbox w.
Proof.
  intros Hact Hev Hcls Hw0 Hw1.
  destruct (reload_launch_fails config (a_name (action data))) eqn:Hengine.
  { destruct (verify_action_launch_fails config action_id user false w data
                event_data Hact Hev Hengine) as (w' & E & Ha & He & _).
    eauto. }
  unfold verify_action, bind at 1, read_action. rewrite Hact.
  unfold bind at 1, read_event. rewrite Hev.
  destruct (event_from_dict_spec event_data w)
    as (event & w1 & E1 & Hdict & (_ & _ & Ho & Hc1 & Hwr)).
  unfold bind at 1. rewrite E1.
  destruct (reconstruct_one_argument config _ event Hcls Hengine)
    as (c & -> & Hc).
  destruct (Hc w1) as (a0 & k & E2 & Hname).
  unfold bind at 1. rewrite E2.
  unfold bind, _save_action, _save_event. simpl.
  rewrite Hwr, Hw0. simpl. rewrite ?Hwr, Hw1. simpl.
  eexists _, _, _. split; [reflexivity|]. simpl.
  rewrite lookup_insert_eq.
  assert (Hid : ev_id event = d_id event_data) by now rewrite <- Hdict.
  rewrite Hid, lookup_insert_eq.
  repeat split; try reflexivity; try assumption.
  unfold rejected_entry. simpl. rewrite Hname. now rewrite <- Hdict.
Qed.

(** X30. A stored isolation cannot be verified on a host where the
    container engine cannot be started: rebuilding the object asks the
    engine about the text "placeholder", the constructor raises OSError,
    which [verify_action] does not catch, and the store is left as it was,
    for approval and rejection alike. *)
Theorem verify_isolation_needs_engine
    (action_id user : string) (approve : bool) (w : World)
    (data : ActionFile) (event_data : EventDict) :
  actions_dir w !! action_id = Some data ->
  events_dir w !! event_id data = Some event_data ->
  reload_launch_fails config (a_name (action data)) = true ->
  exists w',
    verify_action config action_id approve user w = (Exc OSError, w') /\
    actions_dir w' = actions_dir w /\ events_dir w' = events_dir w /\
    outbox w' = outbox w /\ impl_calls w' = impl_calls w.
Proof. apply verify_action_launch_fails. Qed.



(** The constructor call of [verify_action] either builds an object or
    raises (TypeError for a rotation, OSError for an isolation when the
    engine cannot be started); either way it draws uuids only. *)
Lemma reconstruct_cases (action_type : string) (event : SecurityEvent) c :
  reconstruct config action_type event = Some c ->
  allocates c \/ exists x, forall w, exists k, c w = (Exc x, add_uuids k w).
Proof.
  unfold reconstruct.
  repeat match goal with
  | |- context [String.eqb action_type ?k] =>
      destruct (String.eqb action_type k)
  end; intros [= <-].
  - left. apply allocates_BlockIPAction.
  - destruct (launch_fails config "placeholder") eqn:H.
    + right. exists OSError. intros w. exists 1%nat.
      now rewrite IsolateContainerAction_spec, H.
    + left. now apply allocates_IsolateContainerAction.
  - right. eexists. intros w. exists 0%nat. now rewrite add_uuids_0.
  - left. apply allocates_ForensicCaptureAction.
  - left. apply allocates_ExecutePlaybookAction.
Qed.



End VerifyMore.

(** ** The event record over its life *)

Section Lifecycle.

Context {IP : IpAddressLib} {X : Externals}.
Variable config : Config.



End Lifecycle.

(** ** The pending list *)

Section PendingList.

Context {IP : IpAddressLib} {X : Externals}.
Variable config : Config.

Lemma list_pending_elem (w : World) (e : PendingEntry) :
  e ∈ omap (fun kf => pending_entry (events_dir w) (snd kf))
            (map_to_list (actions_dir w)) <->
  exists k f, actions_dir w !! k = Some f /\
              pending_entry (events_dir w) f = Some e.
Proof.
  rewrite list_elem_of_omap. split.
  - intros ([k f] & Hin & He). apply elem_of_map_to_list in Hin. eauto.
  - intros (k & f & Hk & He). exists (k, f).
    split; [now apply elem_of_map_to_list|exact He].
Qed.

Lemma pending_entry_Some events f e :
  pending_entry events f = Some e ->
  a_verification_status (action f) = VPending /\
  a_requires_verification (action f) = true /\
  pending_action_id e = a_id (action f) /\
  pending_action_name e = a_name (action f) /\
  pending_status e = a_status (action f) /\
  pending_event e = event_info <$> events !! event_id f.
Proof.
  unfold pending_entry.
  destruct (bool_decide (a_verification_status (action f) = VPending))
    eqn:Hvs; simpl; [|discriminate].
  destruct (a_requires_verification (action f)); [|discriminate].
  intros [= <-]. simpl. apply bool_decide_eq_true in Hvs. tauto.
Qed.

Lemma listed_is_unexecuted_same w w' :
  actions_dir w' = actions_dir w ->
  listed_is_unexecuted w -> listed_is_unexecuted w'.
Proof. intros E H k f. rewrite E. apply H. Qed.

Lemma listed_is_unexecuted_insert w w' k f :
  actions_dir w' = <[k := f]> (actions_dir w) ->
  (a_requires_verification (action f) = true ->
   a_verification_status (action f) = VPending ->
   a_status (action f) = Pending /\ a_result (action f) = None /\
   a_start_time (action f) = None) ->
  listed_is_unexecuted w -> listed_is_unexecuted w'.
Proof.
  intros E Hf H k' f'. rewrite E.
  destruct (decide (k = k')) as [->|Hne].
  - rewrite lookup_insert_eq. intros [= <-]. exact Hf.
  - rewrite lookup_insert_ne by exact Hne. apply H.
Qed.

(** What [_execute_action] can do to the action files. *)
Lemma _execute_action_files (a : ResponseAction) (event : SecurityEvent)
    (w : World) :
  exists b a' event' w',
    _execute_action config a event w = (Ok (b, a', event'), w') /\
    (id a' = id a /\
     verification_status a' = verification_status a /\
     requires_verification a' = requires_verification a) /\
    (actions_dir w' = actions_dir w \/
     actions_dir w' = <[id a := action_file a' event]> (actions_dir w)).
Proof.
  destruct (execute_spec config a w)
    as (b & a' & w1 & E & (Hid & _ & _ & Hrv & Hvs) & Hworld & _).
  destruct Hworld as (_ & Ha & _ & _ & _).
  rewrite (_execute_action_spec config _ _ _ _ _ _ E). cbv zeta.
  unfold _save_action, _save_event, notify.
  destruct (write_ok (writes w1)); simpl.
  - destruct (write_ok (S (writes w1))); simpl;
      eexists _, _, _, _; (split; [reflexivity|]); simpl;
      rewrite Hid, Ha; (split; [tauto|]); right; reflexivity.
  - eexists _, _, _, _. split; [reflexivity|]. simpl. tauto.
Qed.

Lemma handle_one_listed a event w :
  unstarted a ->
  listed_is_unexecuted w ->
  listed_is_unexecuted (snd (handle_one config a event w)).
Proof.
  intros Ha H. unfold handle_one.
  destruct (requires_verification a) eqn:Hrv; simpl.
  - unfold bind, _save_action.
    destruct (write_ok (writes w)); simpl.
    + eapply listed_is_unexecuted_insert; [reflexivity| |exact H].
      simpl. intros _ _. unfold unstarted in Ha. tauto.
    + eapply listed_is_unexecuted_same; [reflexivity|exact H].
  - destruct (_execute_action_files a event w)
      as (b & a' & e' & w' & E & (_ & _ & Hrv') & Hact).
    unfold bind. rewrite E. simpl.
    destruct Hact as [Hact|Hact].
    + now apply (listed_is_unexecuted_same w).
    + eapply listed_is_unexecuted_insert; [exact Hact| |exact H].
      simpl. rewrite Hrv', Hrv. discriminate.
Qed.

Lemma handle_loop_listed actions event w :
  Forall unstarted actions ->
  listed_is_unexecuted w ->
  listed_is_unexecuted (snd (handle_loop config actions event w)).
Proof.
  intros Hall. revert event w.
  induction Hall as [|a rest Ha _ IH]; intros event w H; [exact H|].
  simpl. unfold bind at 1.
  pose proof (handle_one_listed a event w Ha H) as H1.
  destruct (handle_one config a event w) as [[[a' e']|x] w1]; simpl in *.
  - unfold bind. specialize (IH e' w1 H1).
    destruct (handle_loop config rest e' w1) as [[r|x] w2]; exact IH.
  - exact H1.
Qed.

(** What [verify_action] can do to the action files: nothing, or rewrite
    the file of the verified id with the decision on it. *)
Lemma verify_action_action_files
    (action_id user : string) (approve : bool) (w w' : World) :
  snd (verify_action config action_id approve user w) = w' ->
  actions_dir w' = actions_dir w \/
  exists f,
    actions_dir w' = <[action_id := f]> (actions_dir w) /\
    a_id (action f) = action_id /\
    a_verification_status (action f) =
      (if approve then VApproved else VRejected).
Proof.
  unfold verify_action, bind at 1, read_action.
  destruct (actions_dir w !! action_id) as [data|] eqn:Hact;
    [|intros <-; now left].
  unfold bind at 1, read_event.
  destruct (events_dir w !! event_id data) as [ed|] eqn:Hev;
    [|intros <-; now left].
  destruct (event_from_dict_spec ed w)
    as (event & w1 & E1 & _ & (_ & Ha1 & _)).
  unfold bind at 1. rewrite E1.
  destruct (reconstruct config (a_name (action data)) event) as [c|] eqn:Hrec;
    [|intros <-; now left].
  destruct (reconstruct_cases config _ _ _ Hrec) as [Hc|(x & Hx)];
    [|destruct (Hx w1) as (k & E2); unfold bind at 1; rewrite E2;
      intros <-; now left].
  destruct (Hc w1) as (a0 & k & E2).
  unfold bind at 1. rewrite E2.
  destruct approve.
  - unfold bind.
    match goal with
    | |- context [_execute_action config ?a event ?w0] =>
        destruct (_execute_action_files a event w0)
          as (b & a' & e' & w2 & E3 & (Hid & Hvs & _) & Hfiles)
    end.
    rewrite E3. simpl. simpl in Hfiles, Hid, Hvs. intros <-.
    destruct Hfiles as [Hf|Hf]; rewrite Hf, Ha1; [now left|].
    right. eexists. split; [reflexivity|]. simpl. tauto.
  - unfold bind, _save_action, _save_event. simpl.
    destruct (write_ok (writes w1)); simpl; [|intros <-; now left].
    destruct (write_ok (S (writes w1))); simpl; intros <-; simpl;
      right; rewrite Ha1; (eexists; split; [reflexivity|]); simpl; tauto.
Qed.

(** X19. What the pending list shows has not been run. The property that
    every action file still asking for verification records a pending
    action without result or start time is kept by
    [handle_security_event] and by [verify_action], whatever their
    arguments and outcome; and in a store with that property every entry
    [list_pending_actions] returns has status "pending". *)
Theorem pending_list_shows_only_unexecuted
    (event : SecurityEvent) (action_id user : string) (approve : bool)
    (w : World) :
  listed_is_unexecuted w ->
  listed_is_unexecuted (snd (handle_security_event config event w)) /\
  listed_is_unexecuted (snd (verify_action config action_id approve user w)) /\
  exists l,
    list_pending_actions w = (Ok l, w) /\
    Forall (fun e => pending_status e = Pending) l.
Proof.
  intros H. split; [|split].
  - unfold handle_security_event, bind at 1, _save_event.
    destruct (write_ok (writes w)); simpl.
    + unfold bind at 1. simpl. unfold bind at 1.
      destruct (event_launch_fails config event) eqn:Hengine.
      { rewrite (determine_launch_fails config event _ Hengine).
        eapply listed_is_unexecuted_same; [reflexivity|exact H]. }
      match goal with
      | |- context [_determine_response_actions config event ?w0] =>
          destruct (determine_response_actions_spec config event w0 Hengine)
            as (l & -> & _ & Hfresh & _);
          assert (H0 : listed_is_unexecuted (add_uuids (length l) w0))
            by (eapply listed_is_unexecuted_same; [reflexivity|exact H])
      end.
      unfold bind at 1.
      pose proof (handle_loop_listed l event _ Hfresh H0) as H1.
      destruct (handle_loop config l event _) as [[r|x] w2]; exact H1.
    + eapply listed_is_unexecuted_same; [reflexivity|exact H].
  - destruct (verify_action_action_files action_id user approve w _ eq_refl)
      as [Hsame|(f & Hins & _ & Hvs)].
    + eapply listed_is_unexecuted_same; [exact Hsame|exact H].
    + eapply listed_is_unexecuted_insert; [exact Hins| |exact H].
      rewrite Hvs. destruct approve; discriminate.
  - eexists. split; [reflexivity|].
    apply Forall_forall. intros e He.
    apply list_pending_elem in He as (k & f & Hk & Hsome).
    apply pending_entry_Some in Hsome as (Hvs & Hrv & _ & _ & -> & _).
    now apply (H k f Hk Hrv Hvs).
Qed.

Lemma verify_action_files_written
    (action_id user : string) (approve : bool) (w : World)
    (data : ActionFile) (event_data : EventDict) :
  actions_dir w !! action_id = Some data ->
  events_dir w !! event_id data = Some event_data ->
  In (a_name (action data)) one_argument_classes ->
  reload_launch_fails config (a_name (action data)) = false ->
  write_ok (writes w) = true ->
  exists f,
    actions_dir (snd (verify_action config action_id approve user w))
      = <[action_id := f]> (actions_dir w) /\
    a_verification_status (action f) <> VPending.
Proof.
  intros Hact Hev Hcls Hengine Hw.
  unfold verify_action, bind at 1, read_action. rewrite Hact.
  unfold bind at 1, read_event. rewrite Hev.
  destruct (event_from_dict_spec event_data w)
    as (event & w1 & E1 & _ & (_ & Ha1 & _ & _ & Hwr)).
  unfold bind at 1. rewrite E1.
  destruct (reconstruct_one_argument config _ event Hcls Hengine)
    as (c & -> & Hc).
  destruct (Hc w1) as (a0 & k & E2 & _).
  unfold bind at 1. rewrite E2.
  destruct approve.
  - unfold bind.
    match goal with
    | |- context [_execute_action config ?a event ?w0] =>
        destruct (_execute_action_stored config a event w0)
          as (b & a' & e' & w2 & E3 & (Hid & Hvs) & _ & Hstored & _);
          [simpl; now rewrite Hwr|]
    end.
    rewrite E3. simpl. simpl in Hstored, Hvs. rewrite Hstored, Ha1.
    eexists. split; [reflexivity|]. simpl. rewrite Hvs. discriminate.
  - unfold bind, _save_action, _save_event, ret. simpl.
    rewrite Hwr, Hw. simpl.
    destruct (write_ok (S (writes w))); simpl; rewrite Ha1;
      (eexists; split; [reflexivity|]); simpl; discriminate.
Qed.

(** X20. A verified action leaves the pending list. In a store whose action
    files sit under their own ids, once [verify_action] has got as far as
    writing the action file (a class built from one argument, the event
    file present, the write succeeding), no entry of
    [list_pending_actions] carries the verified id any more, after an
    approval as after a rejection. The one exception is a stored isolation
    on a host where the container engine cannot be started: nothing is
    written then and both directories stay as they were. *)
Theorem verified_action_leaves_pending_list
    (action_id user : string) (approve : bool) (w : World)
    (data : ActionFile) (event_data : EventDict) :
  actions_keyed w ->
  actions_dir w !! action_id = Some data ->
  events_dir w !! event_id data = Some event_data ->
  In (a_name (action data)) one_argument_classes ->
  write_ok (writes w) = true ->
  let w' := snd (verify_action config action_id approve user w) in
  if reload_launch_fails config (a_name (action data))
  then actions_dir w' = actions_dir w /\ events_dir w' = events_dir w
  else exists l,
    list_pending_actions w' = (Ok l, w') /\
    Forall (fun e => pending_action_id e <> action_id) l.
Proof.
  intros Hkeyed Hact Hev Hcls Hw w'.
  destruct (reload_launch_fails config (a_name (action data))) eqn:Hengine.
  { destruct (verify_action_launch_fails config action_id user approve w
                data event_data Hact Hev Hengine) as (w1 & E & Ha & He & _).
    unfold w'. rewrite E. simpl. tauto. }
  destruct (verify_action_files_written action_id user approve w data
              event_data Hact Hev Hcls Hengine Hw) as (f' & Hins & Hvs).
  fold w' in Hins.
  eexists. split; [reflexivity|].
  apply Forall_forall. intros e He.
  apply list_pending_elem in He as (k & f & Hk & Hsome).
  apply pending_entry_Some in Hsome as (Hvs' & _ & -> & _).
  rewrite Hins in Hk.
  destruct (decide (action_id = k)) as [->|Hne].
  - rewrite lookup_insert_eq in Hk. injection Hk as <-. contradiction.
  - rewrite lookup_insert_ne in Hk by exact Hne.
    rewrite (Hkeyed _ _ Hk). congruence.
Qed.

Lemma processed_pending_in actions l' a :
  Forall2 processed actions l' ->
  In a actions -> requires_verification a = true -> In a l'.
Proof.
  induction 1 as [|x x' rest l2 Hp _ IH]; simpl; [tauto|].
  intros [->|Hin] Hrv.
  - left. destruct Hp as (_ & Hkeep & _). now apply Hkeep.
  - right. now apply IH.
Qed.

(** X21. What awaits verification shows up in the pending list. With a
    working disk and distinct action ids, after the loop of
    [handle_security_event] every action of the list that needs
    verification, being as its constructor left it, has an entry in
    [list_pending_actions] with its id, its class name and status
    "pending". *)
Theorem pending_actions_are_listed (actions : list ResponseAction)
    (event : SecurityEvent) (w : World) :
  (forall n, write_ok n = true) ->
  List.NoDup (map id actions) ->
  Forall unstarted actions ->
  exists r w' l,
    handle_loop config actions event w = (Ok r, w') /\
    list_pending_actions w' = (Ok l, w') /\
    forall a, In a actions -> requires_verification a = true ->
      exists e, e ∈ l /\ pending_action_id e = id a /\
                pending_action_name e = name a /\
                pending_status e = Pending.
Proof.
  intros Hw Hnd Hfresh.
  destruct (handle_loop_working_disk config actions event w Hw)
    as (l' & w' & E & Hall & _ & _ & _ & Hfiles & _).
  eexists _, w', _. split; [exact E|]. split; [reflexivity|].
  intros a Hin Hrv.
  pose proof (processed_pending_in _ _ _ Hall Hin Hrv) as Hin'.
  pose proof (Hfiles Hnd a Hin') as Hfile.
  rewrite List.Forall_forall in Hfresh.
  destruct (Hfresh a Hin) as (Hst & Hvs & _).
  eexists. split.
  - apply list_pending_elem. exists (id a), (action_file a event).
    split; [exact Hfile|]. unfold pending_entry. simpl.
    rewrite Hvs, Hrv. reflexivity.
  - simpl. tauto.
Qed.

End PendingList.

(** ** Cleaning the store *)

Section Cleaning.

Variable ticks_per_day : Z.

Lemma clean_events_loop_gone cutoff (files : list (string * EventDict))
    (es : gmap string EventDict) (c : nat) (k : string) :
  es !! k = None ->
  fst (clean_events_loop cutoff files es c) !! k = None.
Proof.
  unfold clean_events_loop. revert es c.
  induction files as [|[k1 d1] rest IH]; intros es c Hes; simpl; [exact Hes|].
  destruct (event_is_old cutoff d1); apply IH; [|exact Hes].
  simpl. destruct (decide (k1 = k)) as [->|Hne].
  - apply lookup_delete_eq.
  - now rewrite lookup_delete_ne.
Qed.

Lemma clean_events_loop_deleted cutoff (files : list (string * EventDict))
    (es : gmap string EventDict) (c : nat) (k : string) (d : EventDict) :
  (k, d) ∈ files -> event_is_old cutoff d = true ->
  fst (clean_events_loop cutoff files es c) !! k = None.
Proof.
  revert es c.
  induction files as [|[k0 d0] rest IH]; intros es c Hin Hold.
  - inversion Hin.
  - apply elem_of_cons in Hin as [[= <- <-]|Hin].
    + unfold clean_events_loop. simpl. rewrite Hold.
      apply (clean_events_loop_gone cutoff rest). apply lookup_delete_eq.
    + unfold clean_events_loop. simpl.
      destruct (event_is_old cutoff d0); now apply IH.
Qed.

Lemma clean_events_loop_kept cutoff (files : list (string * EventDict))
    (es : gmap string EventDict) (c : nat) (k : string) :
  (forall d, (k, d) ∈ files -> event_is_old cutoff d = false) ->
  fst (clean_events_loop cutoff files es c) !! k = es !! k.
Proof.
  unfold clean_events_loop. revert es c.
  induction files as [|[k0 d0] rest IH]; intros es c Hkeep; [reflexivity|].
  simpl. destruct (event_is_old cutoff d0) eqn:Hold.
  - rewrite IH by (intros d Hd; apply Hkeep; now right).
    simpl. apply lookup_delete_ne. intros ->.
    rewrite (Hkeep d0) in Hold by now left. discriminate.
  - apply IH. intros d Hd. apply Hkeep. now right.
Qed.

Lemma clean_events_loop_count cutoff (files : list (string * EventDict))
    (es : gmap string EventDict) (c : nat) :
  snd (clean_events_loop cutoff files es c) =
  (c + length (List.filter (fun kd => event_is_old cutoff (snd kd)) files))%nat.
Proof.
  unfold clean_events_loop. revert es c.
  induction files as [|[k0 d0] rest IH]; intros es c; simpl; [lia|].
  destruct (event_is_old cutoff d0); rewrite IH; simpl; lia.
Qed.

Lemma clean_events_loop_size cutoff (files : list (string * EventDict))
    (es : gmap string EventDict) (c : nat) :
  NoDup (files.*1) ->
  (forall k d, (k, d) ∈ files -> es !! k = Some d) ->
  let r := clean_events_loop cutoff files es c in
  (size (fst r) + snd r = size es + c)%nat.
Proof.
  unfold clean_events_loop. revert es c.
  induction files as [|[k0 d0] rest IH]; intros es c Hnd Hin; simpl; [lia|].
  apply NoDup_cons in Hnd as [Hnot Hnd].
  destruct (event_is_old cutoff d0).
  - rewrite IH; [|exact Hnd|].
    + simpl. rewrite map_size_delete_Some by (rewrite (Hin k0 d0); [eauto|now left]).
      assert (size es <> 0)%nat.
      { apply map_size_non_empty_iff. intros ->.
        specialize (Hin k0 d0 ltac:(now left)). now rewrite lookup_empty in Hin. }
      lia.
    + intros k d Hkd. simpl. rewrite lookup_delete_ne.
      * apply Hin. now right.
      * intros ->. apply Hnot. apply list_elem_of_fmap. now exists (k, d).
  - apply IH; [exact Hnd|]. intros k d Hkd. apply Hin. now right.
Qed.

(** The event files after the first loop: the old ones are gone, the
    others are as they were. *)
Lemma cleaned_events_lookup cutoff (m : gmap string EventDict) k :
  fst (clean_events_loop cutoff (map_to_list m) m 0%nat) !! k =
  match m !! k with
  | Some d => if event_is_old cutoff d then None else Some d
  | None => None
  end.
Proof.
  destruct (m !! k) as [d|] eqn:Hk.
  - destruct (event_is_old cutoff d) eqn:Hold.
    + apply (clean_events_loop_deleted _ _ _ _ k d);
        [now apply elem_of_map_to_list|exact Hold].
    + rewrite clean_events_loop_kept; [exact Hk|].
      intros d' Hd'. apply elem_of_map_to_list in Hd'. congruence.
  - rewrite clean_events_loop_kept; [exact Hk|].
    intros d' Hd'. apply elem_of_map_to_list in Hd'. congruence.
Qed.

Lemma clean_actions_loop_gone (events : gmap string EventDict)
    (files : list (string * ActionFile)) (acts : gmap string ActionFile)
    (k : string) :
  acts !! k = None ->
  clean_actions_loop events files acts !! k = None.
Proof.
  unfold clean_actions_loop. revert acts.
  induction files as [|[k1 f1] rest IH]; intros acts Hacts; simpl;
    [exact Hacts|].
  destruct (events !! event_id f1); apply IH; [exact Hacts|].
  destruct (decide (k1 = k)) as [->|Hne].
  - apply lookup_delete_eq.
  - now rewrite lookup_delete_ne.
Qed.

Lemma clean_actions_loop_deleted (events : gmap string EventDict)
    (files : list (string * ActionFile)) (acts : gmap string ActionFile)
    (k : string) (f : ActionFile) :
  (k, f) ∈ files -> events !! event_id f = None ->
  clean_actions_loop events files acts !! k = None.
Proof.
  revert acts.
  induction files as [|[k0 f0] rest IH]; intros acts Hin Hgone.
  - inversion Hin.
  - apply elem_of_cons in Hin as [[= <- <-]|Hin].
    + unfold clean_actions_loop. simpl. rewrite Hgone.
      apply (clean_actions_loop_gone events rest). apply lookup_delete_eq.
    + unfold clean_actions_loop. simpl.
      destruct (events !! event_id f0); now apply IH.
Qed.

Lemma clean_actions_loop_kept (events : gmap string EventDict)
    (files : list (string * ActionFile)) (acts : gmap string ActionFile)
    (k : string) :
  (forall f, (k, f) ∈ files -> is_Some (events !! event_id f)) ->
  clean_actions_loop events files acts !! k = acts !! k.
Proof.
  unfold clean_actions_loop. revert acts.
  induction files as [|[k0 f0] rest IH]; intros acts Hkeep; [reflexivity|].
  simpl. destruct (events !! event_id f0) eqn:Hev.
  - apply IH. intros f Hf. apply Hkeep. now right.
  - rewrite IH by (intros f Hf; apply Hkeep; now right).
    simpl. apply lookup_delete_ne. intros ->.
    destruct (Hkeep f0) as [x Hx]; [now left|]. congruence.
Qed.

(** The action files after the second loop: those whose event file is gone
    are gone, the others are as they were. *)
Lemma cleaned_actions_lookup events (m : gmap string ActionFile) k :
  clean_actions_loop events (map_to_list m) m !! k =
  match m !! k with
  | Some f => match events !! event_id f with
              | Some _ => Some f
              | None => None
              end
  | None => None
  end.
Proof.
  destruct (m !! k) as [f|] eqn:Hk.
  - destruct (events !! event_id f) as [d|] eqn:Hev.
    + rewrite clean_actions_loop_kept; [exact Hk|].
      intros f' Hf'. apply elem_of_map_to_list in Hf'.
      assert (f' = f) by congruence. subst. eauto.
    + apply (clean_actions_loop_deleted _ _ _ k f);
        [now apply elem_of_map_to_list|exact Hev].
  - rewrite clean_actions_loop_kept; [exact Hk|].
    intros f' Hf'. apply elem_of_map_to_list in Hf'. congruence.
Qed.

Lemma clean_before_spec cutoff (w : World) :
  exists n w',
    clean_before cutoff w = (Ok n, w') /\
    (forall k, events_dir w' !! k =
       match events_dir w !! k with
       | Some d => if event_is_old cutoff d then None else Some d
       | None => None
       end) /\
    (forall k, actions_dir w' !! k =
       match actions_dir w !! k with
       | Some f => match events_dir w' !! event_id f with
                   | Some _ => Some f
                   | None => None
                   end
       | None => None
       end) /\
    n = length (List.filter (fun kd => event_is_old cutoff (snd kd))
                            (map_to_list (events_dir w))) /\
    (size (events_dir w') + n = size (events_dir w))%nat /\
    (outbox w' = outbox w /\ impl_calls w' = impl_calls w /\
     clock w' = clock w /\ uuids w' = uuids w /\ writes w' = writes w).
Proof.
  unfold clean_before. eexists _, _. split; [reflexivity|]. simpl.
  split; [intros k; apply cleaned_events_lookup|].
  split; [intros k; apply cleaned_actions_lookup|].
  split; [now rewrite clean_events_loop_count|].
  split; [|tauto].
  pose proof (clean_events_loop_size cutoff (map_to_list (events_dir w))
                (events_dir w) 0%nat) as H.
  cbv zeta in H. rewrite H; [lia|apply NoDup_fst_map_to_list|].
  intros k d. apply elem_of_map_to_list.
Qed.

(** The world after [datetime.now()]. *)
Lemma clean_old_events_in_range (days : Z) (w : World) :
  cutoff_in_range ticks_per_day days w ->
  clean_old_events ticks_per_day days w =
  clean_before (Z.of_nat (clock w) - days * ticks_per_day) (snd (now w)).
Proof.
  intros [Hdays [Hlo Hhi]].
  unfold clean_old_events, bind, now, timedelta_days, datetime_sub. simpl.
  rewrite (proj2 (Z.leb_le _ _) Hdays).
  rewrite (proj2 (Z.leb_le _ _) Hlo), (proj2 (Z.leb_le _ _) Hhi).
  reflexivity.
Qed.

Lemma clean_old_events_not_in_range (days : Z) (w : World) :
  ~ cutoff_in_range ticks_per_day days w ->
  clean_old_events ticks_per_day days w = (Exc OverflowError, snd (now w)).
Proof.
  intros Hnot.
  unfold clean_old_events, bind, now, timedelta_days, datetime_sub. simpl.
  destruct (Z.leb_spec (Z.abs days) 999999999) as [Hdays|_]; [|reflexivity].
  destruct (Z.leb_spec 0 (Z.of_nat (clock w) - days * ticks_per_day))
    as [Hlo|_]; [|reflexivity].
  destruct (Z.leb_spec (Z.of_nat (clock w) - days * ticks_per_day)
              (datetime_max ticks_per_day)) as [Hhi|_]; [|reflexivity].
  exfalso. apply Hnot. unfold cutoff_in_range. tauto.
Qed.

(** X22. When its cutoff can be computed, [clean_old_events(days)] removes
    exactly the event files whose timestamp lies before [now - days], keeps
    every other event file as it is, and keeps an action file exactly when
    the file of its event is kept; it sends nothing and executes
    nothing. *)
Theorem clean_old_events_keeps_recent (days : Z) (w : World) :
  cutoff_in_range ticks_per_day days w ->
  let cutoff := Z.of_nat (clock w) - days * ticks_per_day in
  exists n w',
    clean_old_events ticks_per_day days w = (Ok n, w') /\
    (forall k, events_dir w' !! k =
       match events_dir w !! k with
       | Some d => if Z.of_nat (d_timestamp d) <? cutoff then None
                   else Some d
       | None => None
       end) /\
    (forall k, actions_dir w' !! k =
       match actions_dir w !! k with
       | Some f => match events_dir w' !! event_id f with
                   | Some _ => Some f
                   | None => None
                   end
       | None => None
       end) /\
    outbox w' = outbox w /\ impl_calls w' = impl_calls w.
Proof.
  intros Hrange. cbv zeta. rewrite (clean_old_events_in_range _ _ Hrange).
  match goal with
  | |- context [clean_before ?c ?w0] =>
      destruct (clean_before_spec c w0)
        as (n & w' & E & Hev & Hact & _ & _ & Ho & Hc & _)
  end.
  exists n, w'. split; [exact E|]. simpl in *. tauto.
Qed.

Lemma no_orphans_after_clean (days : Z) (w : World) :
  cutoff_in_range ticks_per_day days w ->
  no_orphan_actions (snd (clean_old_events ticks_per_day days w)).
Proof.
  intros Hrange. rewrite (clean_old_events_in_range _ _ Hrange).
  match goal with
  | |- context [clean_before ?c ?w0] =>
      destruct (clean_before_spec c w0) as (n & w' & E & _ & Hact & _)
  end.
  rewrite E. simpl. intros k f Hk. rewrite Hact in Hk.
  destruct (actions_dir _ !! k) as [f0|]; [|discriminate].
  destruct (events_dir w' !! event_id f0) as [d|] eqn:Hev; [|discriminate].
  injection Hk as <-. eauto.
Qed.

(** X23. When its cutoff can be computed, [clean_old_events] leaves no
    action file that refers to an event without a file, whatever the store
    looked like before. *)
Theorem clean_old_events_leaves_no_orphans (days : Z) (w : World) :
  cutoff_in_range ticks_per_day days w ->
  no_orphan_actions (snd (clean_old_events ticks_per_day days w)).
Proof. apply no_orphans_after_clean. Qed.

(** X24. When its cutoff can be computed, the number [clean_old_events]
    returns is the number of event files it removed; the action files
    removed with them are not counted. *)
Theorem clean_old_events_counts_events (days : Z) (w : World) :
  cutoff_in_range ticks_per_day days w ->
  exists n w',
    clean_old_events ticks_per_day days w = (Ok n, w') /\
    (size (events_dir w') + n = size (events_dir w))%nat.
Proof.
  intros Hrange. rewrite (clean_old_events_in_range _ _ Hrange).
  match goal with
  | |- context [clean_before ?c ?w0] =>
      destruct (clean_before_spec c w0)
        as (n & w' & E & _ & _ & _ & Hsize & _)
  end.
  exists n, w'. split; [exact E|exact Hsize].
Qed.



(** X28. When the cutoff cannot be computed (more than 999999999 days
    either way, or a cutoff before year 1 or after year 9999),
    [clean_old_events] raises OverflowError before it looks at any file:
    both directories are as they were, nothing is sent and nothing is
    executed. *)
Theorem clean_old_events_out_of_range (days : Z) (w : World) :
  999999999 < Z.abs days \/
  Z.of_nat (clock w) - days * ticks_per_day < 0 \/
  datetime_max ticks_per_day < Z.of_nat (clock w) - days * ticks_per_day ->
  exists w',
    clean_old_events ticks_per_day days w = (Exc OverflowError, w') /\
    events_dir w' = events_dir w /\ actions_dir w' = actions_dir w /\
    outbox w' = outbox w /\ impl_calls w' = impl_calls w.
Proof.
  intros Hout. rewrite clean_old_events_not_in_range.
  - eexists. split; [reflexivity|]. simpl. tauto.
  - unfold cutoff_in_range. lia.
Qed.

End Cleaning.

(** ** One execution, one stored event *)

Section Single.

Context {IP : IpAddressLib} {X : Externals}.
Variable config : Config.

(** X26. [execute] on an action that has no result and no error yet ends in
    exactly one of two ways: it returns [True] with the action completed,
    a result set and no error, or it returns [False] with the action
    failed, an error set and no result. Either way the start and end times
    are set. *)
Theorem execute_outcome_is_exclusive (a : ResponseAction) (w : World) :
  result a = None -> error a = None ->
  exists b a' w',
    execute config a w = (Ok (b, a'), w') /\
    ((b = true /\ status a' = Completed /\
      is_Some (result a') /\ error a' = None) \/
     (b = false /\ status a' = Failed /\
      result a' = None /\ is_Some (error a'))) /\
    is_Some (start_time a') /\ is_Some (end_time a').
Proof.
  intros Hres Herr.
  unfold execute, execute_begin, execute_try, bind, now, ret, _execute_impl.
  destruct (dry_run (general config)); simpl.
  - eexists _, _, _. split; [reflexivity|]. simpl.
    split; [left|]; eauto 10.
  - rewrite impl_outcome_set_status.
    destruct (impl_outcome config a (impl_calls w)); simpl;
      (eexists _, _, _; split; [reflexivity|]; simpl).
    + split; [left|]; eauto 10.
    + split; [right|]; eauto 10.
Qed.

(** X27. An event survives the store: once [_save_event] has written it,
    reading the file under the event's id and rebuilding the object with
    [from_dict] gives back the very event, every field included, and the
    reload itself leaves both directories alone. *)
Theorem event_store_round_trip (event : SecurityEvent) (w : World) :
  write_ok (writes w) = true ->
  exists w1 w2 w3 data,
    _save_event event w = (Ok tt, w1) /\
    read_event (ev_id event) w1 = (Ok (Some data), w2) /\
    event_from_dict data w2 = (Ok event, w3) /\
    events_dir w3 = events_dir w1 /\ actions_dir w3 = actions_dir w1.
Proof.
  intros Hw.
  destruct (event_persist_reload event w Hw)
    as (w1 & w2 & w3 & data & E1 & E2 & E3).
  exists w1, w2, w3, data. split; [exact E1|]. split; [exact E2|].
  split; [exact E3|].
  destruct (event_from_dict_spec data w2)
    as (e' & w' & E & _ & (He & Ha & _)).
  rewrite E3 in E. injection E as _ <-.
  unfold read_event in E2. injection E2 as _ <-. tauto.
Qed.

End Single.

(** ** Concrete runs of the further properties *)

Lemma demo_uuid4_injective : forall m n, @uuid4 Demo.env m = @uuid4 Demo.env n -> m = n.
Proof.
  intros m n H. simpl in H.
  apply (inj (String.app "uuid-")) in H. now apply (inj pretty) in H.
Qed.

Lemma demo_write_ok : forall n, @write_ok Demo.env n = true.
Proof. reflexivity. Qed.

Lemma derived_action_ids_distinct_witness :
  (forall m n, @uuid4 Demo.env m = @uuid4 Demo.env n -> m = n) /\
  exists l w',
    @_determine_response_actions IPv4.lib Demo.env DEFAULT_CONFIG
      DemoMore.container_event DemoMore.small_world = (Ok l, w') /\
    List.NoDup (map id l).
Proof.
  split; [exact demo_uuid4_injective|].
  assert (H := @derived_action_ids_distinct IPv4.lib Demo.env DEFAULT_CONFIG
                 DemoMore.container_event DemoMore.small_world
                 demo_uuid4_injective).
  change (@event_launch_fails Demo.env DEFAULT_CONFIG
            DemoMore.container_event) with false in H.
  destruct H as (l & w' & E & Hnd & _).
  eauto.
Defined.

Lemma missing_evidence_skips_action_witness :
  event_type DemoMore.bare_ip_event = "suspicious_ip" /\
  truthy (details DemoMore.bare_ip_event !! "ip_address") = None /\
  @actions_for_type IPv4.lib Demo.env DEFAULT_CONFIG DemoMore.bare_ip_event
    empty_world = (Ok [], empty_world).
Proof.
  split; [reflexivity|]. split; [reflexivity|].
  apply (@missing_evidence_skips_action IPv4.lib Demo.env DEFAULT_CONFIG
           DemoMore.bare_ip_event empty_world).
  left. split; reflexivity.
Defined.

Lemma suggested_playbook_is_derived_twice_witness :
  In (event_type DemoMore.malware_event)
     ["malware_detection"; "unauthorized_access"; "data_exfiltration"] /\
  details DemoMore.malware_event !! "suggested_playbook"
    = Some (event_type DemoMore.malware_event) /\
  is_Some (available (playbooks DEFAULT_CONFIG)
             !! event_type DemoMore.malware_event) /\
  exists first middle last w',
    @_determine_response_actions IPv4.lib Demo.env DEFAULT_CONFIG
      DemoMore.malware_event empty_world
      = (Ok (first :: middle ++ [last])%list, w') /\
    params first = params last.
Proof.
  assert (H1 : In (event_type DemoMore.malware_event)
     ["malware_detection"; "unauthorized_access"; "data_exfiltration"])
    by (simpl; tauto).
  assert (H2 : details DemoMore.malware_event !! "suggested_playbook"
                 = Some (event_type DemoMore.malware_event))
    by (vm_compute; reflexivity).
  assert (H3 : is_Some (available (playbooks DEFAULT_CONFIG)
                          !! event_type DemoMore.malware_event))
    by (vm_compute; eauto).
  split; [exact H1|]. split; [exact H2|]. split; [exact H3|].
  destruct (@suggested_playbook_is_derived_twice IPv4.lib Demo.env
              DEFAULT_CONFIG DemoMore.malware_event empty_world H1 H2 H3)
    as (a & m & b & w' & E & Ha & Hb & _).
  exists a, m, b, w'. split; [exact E|congruence].
Defined.

Lemma handle_loop_executes_exactly_auto_witness :
  (forall n, @write_ok Demo.env n = true) /\
  exists r w',
    @handle_loop Demo.env DEFAULT_CONFIG
      [DemoMore.block_action; DemoMore.fresh_capture]
      DemoMore.stored_event empty_world = (Ok r, w') /\
    impl_calls w' = [call_of DemoMore.fresh_capture].
Proof.
  split; [exact demo_write_ok|].
  apply (@handle_loop_executes_exactly_auto Demo.env DEFAULT_CONFIG
           [DemoMore.block_action; DemoMore.fresh_capture]
           DemoMore.stored_event empty_world demo_write_ok).
Defined.

Lemma handle_loop_notifies_each_action_witness :
  (forall n, @write_ok Demo.env n = true) /\
  exists l' event' w',
    @handle_loop Demo.env DEFAULT_CONFIG
      [DemoMore.block_action; DemoMore.fresh_capture]
      DemoMore.stored_event empty_world = (Ok (l', event'), w') /\
    Forall2 processed [DemoMore.block_action; DemoMore.fresh_capture] l' /\
    outbox w' = map (notice_for "event-1") l'.
Proof.
  split; [exact demo_write_ok|].
  apply (@handle_loop_notifies_each_action Demo.env DEFAULT_CONFIG
           [DemoMore.block_action; DemoMore.fresh_capture]
           DemoMore.stored_event empty_world demo_write_ok).
Defined.

Lemma handle_loop_logs_executed_actions_witness :
  (forall n, @write_ok Demo.env n = true) /\
  exists l' event' w',
    @handle_loop Demo.env DEFAULT_CONFIG
      [DemoMore.block_action; DemoMore.fresh_capture]
      DemoMore.stored_event empty_world = (Ok (l', event'), w') /\
    response_actions event' = map executed_entry (List.filter auto l') /\
    events_dir w' !! "event-1" = Some (event_to_dict event').
Proof.
  split; [exact demo_write_ok|].
  destruct (@handle_loop_logs_executed_actions Demo.env DEFAULT_CONFIG
              [DemoMore.block_action; DemoMore.fresh_capture]
              DemoMore.stored_event empty_world demo_write_ok)
    as (l' & e' & w' & E & _ & Hlog & Hev).
  exists l', e', w'. split; [exact E|]. split; [exact Hlog|].
  rewrite Hev. simpl. apply lookup_insert_eq.
Defined.

Lemma handle_loop_files_every_action_witness :
  (forall n, @write_ok Demo.env n = true) /\
  List.NoDup (map id [DemoMore.block_action; DemoMore.fresh_capture]) /\
  exists l' event' w',
    @handle_loop Demo.env DEFAULT_CONFIG
      [DemoMore.block_action; DemoMore.fresh_capture]
      DemoMore.stored_event empty_world = (Ok (l', event'), w') /\
    forall a', In a' l' ->
      actions_dir w' !! id a' = Some (action_file a' DemoMore.stored_event).
Proof.
  assert (Hnd : List.NoDup
            (map id [DemoMore.block_action; DemoMore.fresh_capture])).
  { simpl. repeat constructor; simpl; intuition discriminate. }
  split; [exact demo_write_ok|]. split; [exact Hnd|].
  destruct (@handle_loop_files_every_action Demo.env DEFAULT_CONFIG
              [DemoMore.block_action; DemoMore.fresh_capture]
              DemoMore.stored_event empty_world demo_write_ok Hnd)
    as (l' & e' & w' & E & _ & Hfiles & _).
  eauto.
Defined.

Lemma small_world_actions_keyed : actions_keyed DemoMore.small_world.
Proof.
  intros k f H. simpl in H.
  apply lookup_singleton_Some in H as [<- <-]. reflexivity.
Qed.


Lemma small_world_listed_is_unexecuted :
  listed_is_unexecuted DemoMore.small_world.
Proof.
  intros k f H _ _. simpl in H.
  apply lookup_singleton_Some in H as [<- <-]. repeat split.
Qed.



Lemma dry_run_event_calls_no_implementation_witness :
  dry_run (general (set_dry_run DEFAULT_CONFIG)) = true /\
  impl_calls (snd (@handle_security_event IPv4.lib Demo.env
                     (set_dry_run DEFAULT_CONFIG)
                     DemoMore.malware_event empty_world))
    = impl_calls empty_world.
Proof.
  split; [reflexivity|].
  apply (@dry_run_event_calls_no_implementation IPv4.lib Demo.env
           (set_dry_run DEFAULT_CONFIG) DemoMore.malware_event empty_world
           eq_refl).
Defined.

Lemma verify_action_missing_files_witness :
  actions_dir DemoMore.small_world !! "action-9" = None /\
  @verify_action IPv4.lib Demo.env DEFAULT_CONFIG "action-9" true "admin"
    DemoMore.small_world = (Ok false, DemoMore.small_world).
Proof.
  assert (H : actions_dir DemoMore.small_world !! "action-9" = None)
    by (vm_compute; reflexivity).
  split; [exact H|].
  apply (@verify_action_missing_files IPv4.lib Demo.env DEFAULT_CONFIG
           "action-9" "admin" true DemoMore.small_world (or_introl H)).
Defined.

Lemma reject_records_one_entry_witness :
  actions_dir DemoMore.small_world !! "action-3"
    = Some (action_file DemoMore.block_action DemoMore.stored_event) /\
  events_dir DemoMore.small_world !! "event-1"
    = Some (event_to_dict DemoMore.stored_event) /\
  In "BlockIPAction" one_argument_classes /\
  exists w',
    @verify_action IPv4.lib Demo.env DEFAULT_CONFIG "action-3" false "admin"
      DemoMore.small_world = (Ok true, w') /\
    impl_calls w' = impl_calls DemoMore.small_world /\
    outbox w' = outbox DemoMore.small_world.
Proof.
  assert (H1 : actions_dir DemoMore.small_world !! "action-3"
                 = Some (action_file DemoMore.block_action
                           DemoMore.stored_event))
    by (vm_compute; reflexivity).
  assert (H2 : events_dir DemoMore.small_world !! "event-1"
                 = Some (event_to_dict DemoMore.stored_event))
    by (vm_compute; reflexivity).
  assert (H3 : In "BlockIPAction" one_argument_classes) by (simpl; tauto).
  split; [exact H1|]. split; [exact H2|]. split; [exact H3|].
  assert (H := @reject_records_one_entry IPv4.lib Demo.env DEFAULT_CONFIG
                 "action-3" "admin" DemoMore.small_world
                 (action_file DemoMore.block_action DemoMore.stored_event)
                 (event_to_dict DemoMore.stored_event)
                 H1 H2 H3 eq_refl eq_refl).
  change (@reload_launch_fails Demo.env DEFAULT_CONFIG
            (a_name (action (action_file DemoMore.block_action
                               DemoMore.stored_event))))
    with false in H.
  destruct H
    as (w' & f & d & E & _ & _ & _ & _ & _ & Hc & Ho).
  eauto.
Defined.



Lemma pending_list_shows_only_unexecuted_witness :
  listed_is_unexecuted DemoMore.small_world /\
  listed_is_unexecuted
    (snd (@verify_action IPv4.lib Demo.env DEFAULT_CONFIG "action-3" true
            "admin" DemoMore.small_world)) /\
  exists l,
    list_pending_actions DemoMore.small_world
      = (Ok l, DemoMore.small_world) /\
    Forall (fun e => pending_status e = Pending) l.
Proof.
  split; [exact small_world_listed_is_unexecuted|].
  destruct (@pending_list_shows_only_unexecuted IPv4.lib Demo.env
              DEFAULT_CONFIG DemoMore.malware_event "action-3" "admin" true
              DemoMore.small_world small_world_listed_is_unexecuted)
    as (_ & Hv & Hl).
  split; [exact Hv|exact Hl].
Defined.

Lemma verified_action_leaves_pending_list_witness :
  actions_keyed DemoMore.small_world /\
  actions_dir DemoMore.small_world !! "action-3"
    = Some (action_file DemoMore.block_action DemoMore.stored_event) /\
  let w' := snd (@verify_action IPv4.lib Demo.env DEFAULT_CONFIG "action-3"
                   true "admin" DemoMore.small_world) in
  exists l,
    list_pending_actions w' = (Ok l, w') /\
    Forall (fun e => pending_action_id e <> "action-3") l.
Proof.
  assert (H1 : actions_dir DemoMore.small_world !! "action-3"
                 = Some (action_file DemoMore.block_action
                           DemoMore.stored_event))
    by (vm_compute; reflexivity).
  assert (H2 : events_dir DemoMore.small_world !! "event-1"
                 = Some (event_to_dict DemoMore.stored_event))
    by (vm_compute; reflexivity).
  assert (H3 : In "BlockIPAction" one_argument_classes) by (simpl; tauto).
  split; [exact small_world_actions_keyed|]. split; [exact H1|].
  exact (@verified_action_leaves_pending_list IPv4.lib Demo.env
           DEFAULT_CONFIG "action-3" "admin" true DemoMore.small_world
           (action_file DemoMore.block_action DemoMore.stored_event)
           (event_to_dict DemoMore.stored_event)
           small_world_actions_keyed H1 H2 H3 eq_refl).
Defined.

Lemma pending_actions_are_listed_witness :
  (forall n, @write_ok Demo.env n = true) /\
  List.NoDup (map id [DemoMore.block_action; DemoMore.fresh_capture]) /\
  Forall unstarted [DemoMore.block_action; DemoMore.fresh_capture] /\
  exists r w' l,
    @handle_loop Demo.env DEFAULT_CONFIG
      [DemoMore.block_action; DemoMore.fresh_capture]
      DemoMore.stored_event empty_world = (Ok r, w') /\
    list_pending_actions w' = (Ok l, w') /\
    exists e, e ∈ l /\ pending_action_id e = "action-3" /\
              pending_action_name e = "BlockIPAction" /\
              pending_status e = Pending.
Proof.
  assert (Hnd : List.NoDup
            (map id [DemoMore.block_action; DemoMore.fresh_capture])).
  { simpl. repeat constructor; simpl; intuition discriminate. }
  assert (Hf : Forall unstarted
            [DemoMore.block_action; DemoMore.fresh_capture]).
  { unfold unstarted. repeat constructor. }
  split; [exact demo_write_ok|]. split; [exact Hnd|]. split; [exact Hf|].
  destruct (@pending_actions_are_listed Demo.env DEFAULT_CONFIG
              [DemoMore.block_action; DemoMore.fresh_capture]
              DemoMore.stored_event empty_world demo_write_ok Hnd Hf)
    as (r & w' & l & E & El & Hall).
  exists r, w', l. split; [exact E|]. split; [exact El|].
  apply (Hall DemoMore.block_action); [simpl; tauto|reflexivity].
Defined.

Lemma small_world_cutoff_in_range :
  cutoff_in_range 1 3 DemoMore.small_world.
Proof. unfold cutoff_in_range, datetime_max. simpl. lia. Qed.

Lemma clean_old_events_keeps_recent_witness :
  cutoff_in_range 1 3 DemoMore.small_world /\
  exists n w',
    clean_old_events 1 3 DemoMore.small_world = (Ok n, w') /\
    events_dir w' !! "event-1" = None /\
    actions_dir w' !! "action-3" = None.
Proof.
  split; [exact small_world_cutoff_in_range|].
  destruct (clean_old_events_keeps_recent 1 3 DemoMore.small_world
              small_world_cutoff_in_range)
    as (n & w' & E & Hev & Hact & _).
  exists n, w'. split; [exact E|].
  assert (H : events_dir w' !! "event-1" = None)
    by (rewrite Hev; reflexivity).
  split; [exact H|].
  rewrite Hact.
  change (actions_dir DemoMore.small_world !! "action-3")
    with (Some (action_file DemoMore.block_action DemoMore.stored_event)).
  simpl. now rewrite H.
Defined.

Lemma clean_old_events_leaves_no_orphans_witness :
  cutoff_in_range 1 3 DemoMore.small_world /\
  no_orphan_actions (snd (clean_old_events 1 3 DemoMore.small_world)).
Proof.
  split; [exact small_world_cutoff_in_range|].
  apply (clean_old_events_leaves_no_orphans 1 3 DemoMore.small_world
           small_world_cutoff_in_range).
Defined.

Lemma clean_old_events_counts_events_witness :
  cutoff_in_range 1 3 DemoMore.small_world /\
  exists n w',
    clean_old_events 1 3 DemoMore.small_world = (Ok n, w') /\
    (size (events_dir w') + n = size (events_dir DemoMore.small_world))%nat.
Proof.
  split; [exact small_world_cutoff_in_range|].
  apply (clean_old_events_counts_events 1 3 DemoMore.small_world
           small_world_cutoff_in_range).
Defined.


Lemma clean_old_events_out_of_range_witness :
  Z.of_nat (clock DemoMore.small_world) - 30 * 1 < 0 /\
  exists w',
    clean_old_events 1 30 DemoMore.small_world = (Exc OverflowError, w') /\
    events_dir w' = events_dir DemoMore.small_world /\
    actions_dir w' = actions_dir DemoMore.small_world.
Proof.
  assert (H : Z.of_nat (clock DemoMore.small_world) - 30 * 1 < 0)
    by (simpl; lia).
  split; [exact H|].
  destruct (clean_old_events_out_of_range 1 30 DemoMore.small_world
              (or_intror (or_introl H)))
    as (w' & E & He & Ha & _).
  eauto.
Defined.

Lemma engine_failure_aborts_handling_witness :
  @event_launch_fails DemoMore.no_engine_env DEFAULT_CONFIG
    DemoMore.container_event = true /\
  @write_ok DemoMore.no_engine_env (writes empty_world) = true /\
  exists w',
    @handle_security_event IPv4.lib DemoMore.no_engine_env DEFAULT_CONFIG
      DemoMore.container_event empty_world = (Exc OSError, w') /\
    actions_dir w' = actions_dir empty_world /\
    impl_calls w' = impl_calls empty_world.
Proof.
  split; [reflexivity|]. split; [reflexivity|].
  destruct (@engine_failure_aborts_handling IPv4.lib DemoMore.no_engine_env
              DEFAULT_CONFIG DemoMore.container_event empty_world
              eq_refl eq_refl)
    as (w' & E & _ & Ha & _ & Hc & _).
  eauto.
Defined.

Lemma verify_isolation_needs_engine_witness :
  actions_dir DemoMore.isolation_world !! "action-5"
    = Some DemoMore.isolate_file /\
  events_dir DemoMore.isolation_world !! "event-1"
    = Some (event_to_dict DemoMore.container_event) /\
  @reload_launch_fails DemoMore.no_engine_env DEFAULT_CONFIG
    "IsolateContainerAction" = true /\
  exists w',
    @verify_action IPv4.lib DemoMore.no_engine_env DEFAULT_CONFIG "action-5"
      false "admin" DemoMore.isolation_world = (Exc OSError, w') /\
    actions_dir w' = actions_dir DemoMore.isolation_world.
Proof.
  assert (H1 : actions_dir DemoMore.isolation_world !! "action-5"
                 = Some DemoMore.isolate_file)
    by (vm_compute; reflexivity).
  assert (H2 : events_dir DemoMore.isolation_world !! "event-1"
                 = Some (event_to_dict DemoMore.container_event))
    by (vm_compute; reflexivity).
  split; [exact H1|]. split; [exact H2|]. split; [reflexivity|].
  destruct (@verify_isolation_needs_engine IPv4.lib DemoMore.no_engine_env
              DEFAULT_CONFIG "action-5" "admin" false
              DemoMore.isolation_world DemoMore.isolate_file
              (event_to_dict DemoMore.container_event) H1 H2 eq_refl)
    as (w' & E & Ha & _).
  eauto.
Defined.

Lemma execute_outcome_is_exclusive_witness :
  result DemoMore.fresh_capture = None /\
  error DemoMore.fresh_capture = None /\
  exists b a' w',
    @execute Demo.env DEFAULT_CONFIG DemoMore.fresh_capture empty_world
      = (Ok (b, a'), w') /\
    is_Some (start_time a') /\ is_Some (end_time a').
Proof.
  split; [reflexivity|]. split; [reflexivity|].
  destruct (@execute_outcome_is_exclusive Demo.env DEFAULT_CONFIG
              DemoMore.fresh_capture empty_world eq_refl eq_refl)
    as (b & a' & w' & E & _ & Ht).
  eauto.
Defined.

Lemma event_store_round_trip_witness :
  @write_ok Demo.env (writes empty_world) = true /\
  exists w1 w2 w3 data,
    @_save_event Demo.env DemoMore.stored_event empty_world = (Ok tt, w1) /\
    read_event (ev_id DemoMore.stored_event) w1 = (Ok (Some data), w2) /\
    @event_from_dict Demo.env data w2 = (Ok DemoMore.stored_event, w3) /\
    events_dir w3 = events_dir w1 /\ actions_dir w3 = actions_dir w1.
Proof.
  split; [reflexivity|].
  apply (@event_store_round_trip Demo.env DemoMore.stored_event empty_world
           eq_refl).
Defined.
